(** * intothreshlantern: the write-once records of [itl/datastruct.py] and the
    enrichment run of [itl/scraper.py]

    The Python objects are embedded with explicit state passing.  A
    computation over an object of type [S] is a function [S -> result A * S]:
    the object after the call is returned next to the outcome, also when the
    call raised, because a Python exception does not undo the assignments
    made before it. *)

From Stdlib Require Import List String Ascii ZArith Bool Arith Lia Permutation PrimFloat.
Import ListNotations.
Local Open Scope string_scope.

(** ** Values *)

(** [class ChampionSummary(NamedTuple)], twelve fields. *)
Module ChampionSummary.
Record t := mk {
  champion : string;
  role : string;
  csm : float;
  gd15 : float;
  k : float;
  d : float;
  a : float;
  dpm : float;
  kp : float;
  losses : Z;
  wins : Z;
  lp : Z
}.
End ChampionSummary.

(** The Python values that reach an attribute assignment. *)
#[warnings="-register-all"]
Inductive pyvalue :=
| PyNone
| PyBool (b : bool)
| PyInt (z : Z)
| PyFloat (x : float)
| PyStr (s : string)
| PySummary (c : ChampionSummary.t)
| PyList (items : list pyvalue)
| PyTuple (items : list pyvalue).

(** [value is None] *)
Definition is_None (v : pyvalue) : bool :=
  match v with PyNone => true | _ => false end.

(** [isinstance(stats, ChampionSummary)] *)
Definition isinstance_ChampionSummary (v : pyvalue) : bool :=
  match v with PySummary _ => true | _ => false end.

(** [for stats in value]: the elements a value yields, [None] when the value
    is not iterable (iterating it raises [TypeError]).  A string yields its
    characters, a named tuple its fields. *)
Definition iter (v : pyvalue) : option (list pyvalue) :=
  match v with
  | PyNone | PyBool _ | PyInt _ | PyFloat _ => None
  | PyStr s => Some (map (fun c => PyStr (String c EmptyString)) (list_ascii_of_string s))
  | PySummary c =>
      Some [PyStr (ChampionSummary.champion c); PyStr (ChampionSummary.role c);
            PyFloat (ChampionSummary.csm c); PyFloat (ChampionSummary.gd15 c);
            PyFloat (ChampionSummary.k c); PyFloat (ChampionSummary.d c);
            PyFloat (ChampionSummary.a c); PyFloat (ChampionSummary.dpm c);
            PyFloat (ChampionSummary.kp c); PyInt (ChampionSummary.losses c);
            PyInt (ChampionSummary.wins c); PyInt (ChampionSummary.lp c)]
  | PyList items | PyTuple items => Some items
  end.

(** ** Exceptions *)

(** The exceptions of the program, by class and raise site.  The two
    [TypeError]s of [SummonerInformation.__setattr__] differ by message:
    ['SummonerInformation' does not support item reassignment] and
    ['{value}' should be an iterable of 'ChampionSummary' objects]. *)
Inductive exn :=
| TypeError_reassignment
| TypeError_not_summaries (value : pyvalue)
| AttributeError (attr : string)
| IndexError
| KeyError
| ValueError
| OtherException (cls : string)
| SystemExiting (cls : string).

(** [isinstance(e, Exception)]: every error class derives from [Exception];
    [SystemExit], [KeyboardInterrupt] and [GeneratorExit] derive from
    [BaseException] only. *)
Definition isinstance_Exception (e : exn) : bool :=
  match e with SystemExiting _ => false | _ => true end.

(** ** Outcomes and stateful computations *)

Inductive result (A : Type) :=
| Return (x : A)
| Raise (e : exn).
Arguments Return {A} x.
Arguments Raise {A} e.

Definition M (S A : Type) : Type := S -> result A * S.

Definition ret {S A} (x : A) : M S A := fun s => (Return x, s).
Definition raise {S A} (e : exn) : M S A := fun s => (Raise e, s).
Definition bind {S A B} (m : M S A) (f : A -> M S B) : M S B :=
  fun s => match m s with
           | (Return x, s') => f x s'
           | (Raise e, s') => (Raise e, s')
           end.
Definition lift {S A} (r : result A) : M S A := fun s => (r, s).

Declare Scope py_scope.
Delimit Scope py_scope with py.
Notation "x <- m ;; f" := (bind m (fun x => f))
  (at level 100, m at next level, right associativity) : py_scope.
Notation "m ;; f" := (bind m (fun _ => f))
  (at level 100, right associativity) : py_scope.
Local Open Scope py_scope.

(** [for x in l: body(x)] *)
Fixpoint for_each {S A} (body : A -> M S unit) (l : list A) : M S unit :=
  match l with
  | [] => ret tt
  | x :: rest => body x ;; for_each body rest
  end.

(** [label.split(sep)] for a one-character separator. *)
Fixpoint split (sep : ascii) (s : string) : list string :=
  match s with
  | EmptyString => [EmptyString]
  | String c rest =>
      if Ascii.eqb c sep then EmptyString :: split sep rest
      else match split sep rest with
           | [] => [String c EmptyString]
           | w :: ws => String c w :: ws
           end
  end.

(** ** [class SummonerInformation] *)

Module SummonerInformation.

(** An instance is its four slots; a slot that was never assigned holds
    nothing, and reading it raises [AttributeError]. *)
Record t := mk {
  region : option pyvalue;
  name : option pyvalue;
  champion_pool : option pyvalue;
  matchup_pool : option pyvalue
}.

Definition __slots__ : list string :=
  ["region"; "name"; "champion_pool"; "matchup_pool"].

Inductive slot := Region | Name | ChampionPool | MatchupPool.

Definition slot_of (attr : string) : option slot :=
  if attr =? "region" then Some Region
  else if attr =? "name" then Some Name
  else if attr =? "champion_pool" then Some ChampionPool
  else if attr =? "matchup_pool" then Some MatchupPool
  else None.

Definition slot_name (s : slot) : string :=
  match s with
  | Region => "region"
  | Name => "name"
  | ChampionPool => "champion_pool"
  | MatchupPool => "matchup_pool"
  end.

Definition read (s : slot) (self : t) : option pyvalue :=
  match s with
  | Region => region self
  | Name => name self
  | ChampionPool => champion_pool self
  | MatchupPool => matchup_pool self
  end.

Definition write (s : slot) (v : pyvalue) (self : t) : t :=
  match s with
  | Region => mk (Some v) (name self) (champion_pool self) (matchup_pool self)
  | Name => mk (region self) (Some v) (champion_pool self) (matchup_pool self)
  | ChampionPool => mk (region self) (name self) (Some v) (matchup_pool self)
  | MatchupPool => mk (region self) (name self) (champion_pool self) (Some v)
  end.

(** Names that resolve on the class rather than on a slot: the methods and
    attributes of the class body and those every object inherits
    ([__getstate__] since Python 3.11). *)
Definition class_namespace : list string :=
  ["__slots__"; "__init__"; "__setattr__"; "__bool__"; "__repr__";
   "__doc__"; "__module__"; "__class__"; "__delattr__"; "__dir__"; "__eq__";
   "__format__"; "__ge__"; "__getattribute__"; "__getstate__"; "__gt__";
   "__hash__";
   "__init_subclass__"; "__le__"; "__lt__"; "__ne__"; "__new__";
   "__reduce__"; "__reduce_ex__"; "__sizeof__"; "__str__";
   "__subclasshook__"].

(** [hasattr(self, attr)] *)
Definition hasattr (self : t) (attr : string) : bool :=
  match slot_of attr with
  | Some s => match read s self with Some _ => true | None => false end
  | None => existsb (String.eqb attr) class_namespace
  end.

(** [self.<slot>] *)
Definition getattr (s : slot) : M t pyvalue :=
  fun self => match read s self with
              | Some v => (Return v, self)
              | None => (Raise (AttributeError (slot_name s)), self)
              end.

(** [super().__setattr__(attr, value)]: with [__slots__] there is no
    instance dictionary, so only a slot can be stored. *)
Definition object___setattr__ (attr : string) (value : pyvalue) : M t unit :=
  fun self => match slot_of attr with
              | Some s => (Return tt, write s value self)
              | None => (Raise (AttributeError attr), self)
              end.

(** The guard of lines 49-52: [all(isinstance(stats, ChampionSummary) for
    stats in value)], [False] when the iteration raises. *)
Definition check (value : pyvalue) : bool :=
  match iter value with
  | Some items => forallb isinstance_ChampionSummary items
  | None => false
  end.

Definition __setattr__ (attr : string) (value : pyvalue) : M t unit :=
  fun self =>
    if hasattr self attr then (Raise TypeError_reassignment, self)
    else if existsb (String.eqb attr) ["champion_pool"; "matchup_pool"] then
      if negb (check value) then (Raise (TypeError_not_summaries value), self)
      else object___setattr__ attr value self
    else object___setattr__ attr value self.

(** The object [__init__] receives: no slot assigned yet. *)
Definition __new__ : t := mk None None None None.

Definition __init__ (region name : pyvalue) : M t unit :=
  __setattr__ "region" region ;;
  __setattr__ "name" name.

(** The call [SummonerInformation(region, name)]. *)
Definition new (region name : pyvalue) : result t :=
  match __init__ region name __new__ with
  | (Return _, self) => Return self
  | (Raise e, _) => Raise e
  end.

(** [(self.champion_pool is not None) and (self.matchup_pool is not None)] *)
Definition __bool__ : M t bool :=
  p <- getattr ChampionPool ;;
  if is_None p then ret false
  else (m <- getattr MatchupPool ;; ret (negb (is_None m))).

End SummonerInformation.

(** ** [class Composition] *)

Module Composition.

Record t := mk {
  top : SummonerInformation.t;
  jungle : SummonerInformation.t;
  mid : SummonerInformation.t;
  adc : SummonerInformation.t;
  support : SummonerInformation.t
}.

Definition __slots__ : list string :=
  ["top"; "jungle"; "mid"; "adc"; "support"].

Inductive slot := Top | Jungle | Mid | Adc | Support.

Definition slot_of (attr : string) : option slot :=
  if attr =? "top" then Some Top
  else if attr =? "jungle" then Some Jungle
  else if attr =? "mid" then Some Mid
  else if attr =? "adc" then Some Adc
  else if attr =? "support" then Some Support
  else None.

Definition read (s : slot) (self : t) : SummonerInformation.t :=
  match s with
  | Top => top self
  | Jungle => jungle self
  | Mid => mid self
  | Adc => adc self
  | Support => support self
  end.

Definition write (s : slot) (e : SummonerInformation.t) (self : t) : t :=
  match s with
  | Top => mk e (jungle self) (mid self) (adc self) (support self)
  | Jungle => mk (top self) e (mid self) (adc self) (support self)
  | Mid => mk (top self) (jungle self) e (adc self) (support self)
  | Adc => mk (top self) (jungle self) (mid self) e (support self)
  | Support => mk (top self) (jungle self) (mid self) (adc self) e
  end.

(** A computation on the entity object held in slot [s]: the roster holds
    a reference to the object, so what the computation assigns is seen
    through the roster afterwards. *)
Definition on {A} (s : slot) (m : M SummonerInformation.t A) : M t A :=
  fun self => let (r, e) := m (read s self) in (r, write s e self).

(** [getattr(team, attr)] followed by a computation on the object found. *)
Definition on_attr {A} (attr : string) (m : M SummonerInformation.t A) : M t A :=
  match slot_of attr with
  | Some s => on s m
  | None => raise (AttributeError attr)
  end.

(** The call [Composition(region, top, jungle, mid, adc, support)]. *)
Definition __init__ (region top jungle mid adc support : pyvalue) : result t :=
  match SummonerInformation.new region top with
  | Raise e => Raise e
  | Return e1 =>
  match SummonerInformation.new region jungle with
  | Raise e => Raise e
  | Return e2 =>
  match SummonerInformation.new region mid with
  | Raise e => Raise e
  | Return e3 =>
  match SummonerInformation.new region adc with
  | Raise e => Raise e
  | Return e4 =>
  match SummonerInformation.new region support with
  | Raise e => Raise e
  | Return e5 => Return (mk e1 e2 e3 e4 e5)
  end end end end end.

(** The five [yield]s of [__iter__], in order. *)
Definition __iter__ (self : t) : list SummonerInformation.t :=
  [top self; jungle self; mid self; adc self; support self].

End Composition.

(** ** [class GGScraper] *)

(** A row of the champion table: the columns [name], [slug], [id]. *)
Record champion_row := {
  row_name : string;
  row_slug : string;
  row_id : Z
}.

Definition DataFrame := list champion_row.

(** [df.loc[mask, column].values]: the column's values on the rows the mask
    selects. *)
Definition loc {A} (df : DataFrame) (mask : list bool) (column : champion_row -> A) : list A :=
  map (fun p => column (snd p)) (filter fst (combine mask df)).

(** [values[0]] *)
Definition first {S A} (values : list A) : M S A :=
  match values with
  | v :: _ => ret v
  | [] => raise IndexError
  end.

(** The two functions [inform] submits to the pool. *)
Inductive pool_fn := get_champion_pool | get_matchup_pool.

(** One [executor.submit(fn, summoner, region, role=...)]. *)
Record Call := {
  call_fn : pool_fn;
  call_summoner : pyvalue;
  call_region : pyvalue;
  call_role : string
}.

(** A settled [concurrent.futures.Future]: the call it ran and what the call
    produced, a value or the exception it raised.  [fut_id] stands for the
    object's identity, by which the dictionary [fs] is keyed. *)
Record Future := {
  fut_id : nat;
  fut_call : Call;
  fut_outcome : result pyvalue
}.

(** [future.result()] on a settled future. *)
Definition Future_result (f : Future) : result pyvalue := fut_outcome f.

(** [fs[f]] on the dictionary [fs], in insertion order. *)
Fixpoint dict_get (fs : list (Future * string)) (f : Future) : option string :=
  match fs with
  | [] => None
  | (g, label) :: rest => if Nat.eqb (fut_id g) (fut_id f) then Some label else dict_get rest f
  end.

Module GGScraper.

Record t := mk {
  SHA_C : string;
  SHA_M : string;
  max_games : Z;
  max_workers : Z;
  _df : option DataFrame
}.

(** [GGScraper(SHA_C, SHA_M, max_games, max_workers=5)]: [_df] is not set. *)
Definition __init__ (SHA_C SHA_M : string) (max_games max_workers : Z) : t :=
  mk SHA_C SHA_M max_games max_workers None.

(** The property [df].  [response] is what the champion query answers if it
    is sent now: the rows, or the exception of the request or of reading
    its answer.  The query is sent only while [_df] is not set.  This is
    one access made by one thread, with no other thread using the scraper
    meanwhile: the test, the request and the store are one step here.  In
    the source they are separate statements and nothing locks them, so
    accesses made at the same time by the worker threads of [inform] can
    both find [_df] unset and both load; such interleavings are not
    modelled. *)
Definition df (response : result DataFrame) : M t DataFrame :=
  fun self =>
    match _df self with
    | Some table => (Return table, self)
    | None =>
        match response with
        | Return table =>
            (Return table,
             mk (SHA_C self) (SHA_M self) (max_games self) (max_workers self) (Some table))
        | Raise e => (Raise e, self)
        end
    end.

(** [self.df.loc[self.df['name'] == name, 'id'].values[0]] *)
Definition to_id (response : result DataFrame) (name : string) : M t Z :=
  table <- df response ;;
  column <- df response ;;
  first (loc table (map (fun r => row_name r =? name) column) row_id).

(** [self.df.loc[self.df['id'] == riot_id, 'name'].values[0]] *)
Definition from_id (response : result DataFrame) (riot_id : Z) : M t string :=
  table <- df response ;;
  column <- df response ;;
  first (loc table (map (fun r => Z.eqb (row_id r) riot_id) column) row_name).

(** [try: return future.result() / except Exception: return None] *)
Definition _fetch (future : Future) : result pyvalue :=
  match Future_result future with
  | Return v => Return v
  | Raise e => if isinstance_Exception e then Return PyNone else Raise e
  end.

Section inform.

(** What the Remote Data Source does with the [i]-th submitted call: the
    list of summaries [_get_pool] returns, or the exception it raises. *)
Variable remote : nat -> Call -> result (list ChampionSummary.t).

(** [as_completed]: the futures in the order in which they settle. *)
Variable as_completed : list Future -> list Future.

(** [executor.submit(fn, summoner, region, role=role)], settled. *)
Definition submit (i : nat) (c : Call) : Future :=
  {| fut_id := i;
     fut_call := c;
     fut_outcome := match remote i c with
                    | Return stats => Return (PyList (map PySummary stats))
                    | Raise e => Raise e
                    end |}.

(** One entry of the dictionary [fs]:
    [executor.submit(fn, team.<s>.name, team.<s>.region, role=role): label]. *)
Definition entry (i : nat) (fn : pool_fn) (s : Composition.slot) (role label : string)
  : M Composition.t (Future * string) :=
  name <- Composition.on s (SummonerInformation.getattr SummonerInformation.Name) ;;
  region <- Composition.on s (SummonerInformation.getattr SummonerInformation.Region) ;;
  ret (submit i {| call_fn := fn; call_summoner := name;
                   call_region := region; call_role := role |}, label).

(** The dictionary [fs] of lines 159-172. *)
Definition submit_all : M Composition.t (list (Future * string)) :=
  f0 <- entry 0 get_champion_pool Composition.Top "TOP" "top.champion_pool" ;;
  f1 <- entry 1 get_champion_pool Composition.Jungle "JUNGLE" "jungle.champion_pool" ;;
  f2 <- entry 2 get_champion_pool Composition.Mid "MID" "mid.champion_pool" ;;
  f3 <- entry 3 get_champion_pool Composition.Adc "ADC" "adc.champion_pool" ;;
  f4 <- entry 4 get_champion_pool Composition.Support "SUPPORT" "support.champion_pool" ;;
  f5 <- entry 5 get_matchup_pool Composition.Top "TOP" "top.matchup_pool" ;;
  f6 <- entry 6 get_matchup_pool Composition.Jungle "JUNGLE" "jungle.matchup_pool" ;;
  f7 <- entry 7 get_matchup_pool Composition.Mid "MID" "mid.matchup_pool" ;;
  f8 <- entry 8 get_matchup_pool Composition.Adc "ADC" "adc.matchup_pool" ;;
  f9 <- entry 9 get_matchup_pool Composition.Support "SUPPORT" "support.matchup_pool" ;;
  ret [f0; f1; f2; f3; f4; f5; f6; f7; f8; f9].

(** The body of [for f in ps]:
    [role, pool = fs[f].split('.')] and
    [setattr(getattr(team, role), pool, self._fetch(f))]. *)
Definition store (fs : list (Future * string)) (f : Future) : M Composition.t unit :=
  match dict_get fs f with
  | None => raise KeyError
  | Some label =>
      match split "." label with
      | [role; pool] =>
          Composition.on_attr role
            (value <- lift (_fetch f) ;;
             SummonerInformation.__setattr__ pool value)
      | _ => raise ValueError
      end
  end.

(** [all(info for info in team)]: [bool(info)] on each entity in turn,
    stopping at the first that is false. *)
Fixpoint all_bool (team : list SummonerInformation.t) : result bool :=
  match team with
  | [] => Return true
  | info :: rest =>
      match fst (SummonerInformation.__bool__ info) with
      | Return true => all_bool rest
      | Return false => Return false
      | Raise e => Raise e
      end
  end.

Definition inform : M Composition.t bool :=
  fs <- submit_all ;;
  for_each (store fs) (as_completed (map fst fs)) ;;
  fun team => (all_bool (Composition.__iter__ team), team).

End inform.

End GGScraper.

(** ** The pool queries of [GGScraper] *)

(** The [data] dictionary [_get_pool] posts: [operationName], the entries
    of [variables], and the [persistedQuery] of [extensions]. *)
Record Query := {
  operationName : string;
  var_top : Z;
  var_mode : string;
  var_summonerName : pyvalue;
  var_region : pyvalue;
  var_cChampionId : option Z;
  var_cQueue : option string;
  var_cRolename : option string;
  var_cSeasonId : option Z;
  var_cSortDirection : string;
  var_cSortField : string;
  var_skip : Z;
  persistedQuery_version : Z;
  persistedQuery_sha256Hash : string
}.

(** One element of [championsMatchups.items] in the answer, with the keys
    [_get_pool] reads: [championId], [role], [csm], [goldDiff15],
    [kda.k], [kda.d], [kda.a], [damagePerMinute], [kp], [looses], [wins],
    [lp]. *)
Record Item := {
  item_championId : Z;
  item_role : string;
  item_csm : float;
  item_goldDiff15 : float;
  item_kda_k : float;
  item_kda_d : float;
  item_kda_a : float;
  item_damagePerMinute : float;
  item_kp : float;
  item_looses : Z;
  item_wins : Z;
  item_lp : Z
}.

Module Pools.

(** The scraper together with the pool queries posted so far. *)
Definition World : Type := GGScraper.t * list Query.

Section network.

(** What the champion query answers if it is sent now (see [GGScraper.df]).
    One call of [_get_pool] sends it at most once: the first access to
    [df] either caches the table or raises out of the call. *)
Variable champions : result DataFrame.

(** What the pool service answers to a query: the items at
    [data.lol.player.championsMatchups.items], or the exception of the
    request or of reading its answer. *)
Variable post : Query -> result (list Item).

(** A method of the scraper run inside a call. *)
Definition on_self {A} (m : M GGScraper.t A) : M World A :=
  fun w => let (r, self) := m (fst w) in (r, (self, snd w)).

(** The dtype pandas gives the [id] column of the table: [int64] when every
    identifier fits in 64 bits signed, [uint64] when none is negative and
    every one fits in 64 bits unsigned; otherwise the column holds Python
    integers.  In the first two cases the element [to_id] takes from the
    column is a numpy integer. *)
Definition id_is_numpy (table : DataFrame) : bool :=
  forallb (fun r => Z.leb (- 2 ^ 63) (row_id r) && Z.ltb (row_id r) (2 ^ 63)) table
  || forallb (fun r => Z.leb 0 (row_id r) && Z.ltb (row_id r) (2 ^ 64)) table.

(** Whether [json] can encode the body [data]: [cChampionId], when it is
    not [None], is what [to_id] returned, and a numpy integer is not JSON
    serializable. *)
Definition encodes (self : GGScraper.t) (data : Query) : bool :=
  match var_cChampionId data, GGScraper._df self with
  | Some _, Some table => negb (id_is_numpy table)
  | _, _ => true
  end.

(** [requests.post(url, headers=headers, json=data)] and the items of its
    answer.  The body is encoded first: when that raises ([TypeError]),
    nothing is sent. *)
Definition requests_post (data : Query) : M World (list Item) :=
  fun w =>
    if encodes (fst w) data
    then (post data, (fst w, (snd w ++ [data])%list))
    else (Raise (OtherException "TypeError"), w).

(** [for result in results: stats.append(ChampionSummary(...))] *)
Fixpoint append_all (results : list Item) (stats : list ChampionSummary.t)
  : M World (list ChampionSummary.t) :=
  match results with
  | [] => ret stats
  | result :: rest =>
      champion <- on_self (GGScraper.from_id champions (item_championId result)) ;;
      append_all rest
        (stats ++ [ChampionSummary.mk champion (item_role result)
                     (item_csm result) (item_goldDiff15 result)
                     (item_kda_k result) (item_kda_d result) (item_kda_a result)
                     (item_damagePerMinute result) (item_kp result)
                     (item_looses result) (item_wins result) (item_lp result)])%list
  end.

Definition _get_pool (operation : string) (summoner region : pyvalue)
                     (name queue role : option string)
  : M World (list ChampionSummary.t) :=
  riot_id <- match name with
             | None => ret None
             | Some n => (i <- on_self (GGScraper.to_id champions n) ;; ret (Some i))
             end ;;
  fun w =>
    let self := fst w in
    let sha := if operation =? "LolProfilePageChampionsPoolQuery"
               then GGScraper.SHA_C self else GGScraper.SHA_M self in
    let mode := if operation =? "LolProfilePageChampionsPoolQuery"
                then "Best" else "Worst" in
    let data := {| operationName := operation;
                   var_top := GGScraper.max_games self;
                   var_mode := mode;
                   var_summonerName := summoner;
                   var_region := region;
                   var_cChampionId := riot_id;
                   var_cQueue := queue;
                   var_cRolename := role;
                   var_cSeasonId := None;
                   var_cSortDirection := "DESC";
                   var_cSortField := "GAMES";
                   var_skip := 0;
                   persistedQuery_version := 1;
                   persistedQuery_sha256Hash := sha |} in
    (results <- requests_post data ;;
     append_all results []) w.

Definition get_champion_pool (summoner region : pyvalue) (name queue role : option string)
  : M World (list ChampionSummary.t) :=
  _get_pool "LolProfilePageChampionsPoolQuery" summoner region name queue role.

Definition get_matchup_pool (summoner region : pyvalue) (name queue role : option string)
  : M World (list ChampionSummary.t) :=
  _get_pool "LolProfilePageMatchupsPoolQuery" summoner region name queue role.

End network.

End Pools.

(** ** The two [__repr__] methods *)

Module Repr.

Section str.

(** [str(value)], as an f-string formats a value; the text of floats and
    the quoting of strings inside a list are Python's and are not fixed
    here. *)
Variable str : pyvalue -> string.

(** [getattr(self, attr, None)] on a slot. *)
Definition getattr_or_None (s : SummonerInformation.slot) (self : SummonerInformation.t)
  : pyvalue :=
  match SummonerInformation.read s self with
  | Some v => v
  | None => PyNone
  end.

(** [SummonerInformation.__repr__] *)
Definition SummonerInformation___repr__ : M SummonerInformation.t string :=
  region <- SummonerInformation.getattr SummonerInformation.Region ;;
  name <- SummonerInformation.getattr SummonerInformation.Name ;;
  fun self =>
    (Return ("SummonerInformation{region=" ++ str region ++ ", name=" ++ str name
             ++ ", champion_pool="
             ++ str (getattr_or_None SummonerInformation.ChampionPool self)
             ++ ", matchup_pool="
             ++ str (getattr_or_None SummonerInformation.MatchupPool self) ++ "}"),
     self).

(** [Composition.__repr__]: each [{self.<slot>}] formats the entity with its
    [__repr__]. *)
Definition Composition___repr__ : M Composition.t string :=
  top <- Composition.on Composition.Top SummonerInformation___repr__ ;;
  jungle <- Composition.on Composition.Jungle SummonerInformation___repr__ ;;
  mid <- Composition.on Composition.Mid SummonerInformation___repr__ ;;
  adc <- Composition.on Composition.Adc SummonerInformation___repr__ ;;
  support <- Composition.on Composition.Support SummonerInformation___repr__ ;;
  ret ("Composition{top=" ++ top ++ ", jungle=" ++ jungle ++ ", mid=" ++ mid
       ++ ", adc=" ++ adc ++ ", support=" ++ support ++ "}").

End str.

End Repr.

(** ** [main.py] *)

(** The script: [environ] is [os.environ] after [load_dotenv()]; the result
    is the list of the values it prints, one per [print(summary)]. *)
Definition main (environ : string -> option string)
                (remote : nat -> Call -> result (list ChampionSummary.t))
                (as_completed : list Future -> list Future)
  : result (list pyvalue) :=
  match environ "SHA_C" with
  | None => Raise KeyError
  | Some sha_c =>
  match environ "SHA_M" with
  | None => Raise KeyError
  | Some sha_m =>
  let GG := GGScraper.__init__ sha_c sha_m 200 5 in
  match Composition.__init__ (PyStr "NA") (PyStr "kal1brate") (PyStr "Fizsie")
          (PyStr "thef1tnessgram") (PyStr "AmbientSolace") (PyStr "imwangingrn") with
  | Raise e => Raise e
  | Return ally =>
  match GGScraper.inform remote as_completed ally with
  | (Raise e, _) => Raise e
  | (Return false, _) => Raise (OtherException "AssertionError")
  | (Return true, ally) =>
  match SummonerInformation.getattr SummonerInformation.ChampionPool
          (Composition.support ally) with
  | (Raise e, _) => Raise e
  | (Return pool, _) =>
  match iter pool with
  | None => Raise (OtherException "TypeError")
  | Some summaries => Return summaries
  end end end end end end.

(** ** Clients used to state the properties *)

(** A history of attribute assignments on one entity, each
    [entity.<attr> = value] attempted in turn; an assignment that raises is
    caught by the caller and the history goes on. *)
Definition assignments (ops : list (string * pyvalue)) (e : SummonerInformation.t)
  : SummonerInformation.t :=
  fold_left (fun e op => snd (SummonerInformation.__setattr__ (fst op) (snd op) e)) ops e.

(** The identity of an entity: its [region] and [name] slots. *)
Definition identity (e : SummonerInformation.t) : option pyvalue * option pyvalue :=
  (SummonerInformation.region e, SummonerInformation.name e).

(** A summary, for the examples. *)
Definition thresh : ChampionSummary.t :=
  ChampionSummary.mk "Thresh" "SUPPORT" 1.5 (-120.5) 1.25 5 12.5 310 0.625 3 7 42.

(** The roster whose slot [s] holds the entity [e s]. *)
Definition roster_of (e : Composition.slot -> SummonerInformation.t) : Composition.t :=
  Composition.mk (e Composition.Top) (e Composition.Jungle) (e Composition.Mid)
                 (e Composition.Adc) (e Composition.Support).

(** A roster on which nothing was fetched yet: every entity has its identity
    and no pool. *)
Definition fresh_roster (region name : Composition.slot -> pyvalue) : Composition.t :=
  roster_of (fun s => SummonerInformation.mk (Some (region s)) (Some (name s)) None None).

(** The role string [inform] passes for a slot of the roster. *)
Definition role_of (s : Composition.slot) : string :=
  match s with
  | Composition.Top => "TOP"
  | Composition.Jungle => "JUNGLE"
  | Composition.Mid => "MID"
  | Composition.Adc => "ADC"
  | Composition.Support => "SUPPORT"
  end.

(** The dictionary [fs] one run of [inform] builds on a roster, and its
    keys: the futures of the run. *)
Definition submitted (remote : nat -> Call -> result (list ChampionSummary.t))
                     (team : Composition.t) : list (Future * string) :=
  match fst (GGScraper.submit_all remote team) with
  | Return fs => fs
  | Raise _ => []
  end.

Definition scheduled (remote : nat -> Call -> result (list ChampionSummary.t))
                     (team : Composition.t) : list Future :=
  map fst (submitted remote team).

(** The pool slot of the roster a future's result is assigned to: the label
    [fs[f]], split at the dot and resolved to the two slots. *)
Definition target (fs : list (Future * string)) (f : Future)
  : option (Composition.slot * SummonerInformation.slot) :=
  match dict_get fs f with
  | Some label =>
      match split "." label with
      | [role; pool] =>
          match Composition.slot_of role, SummonerInformation.slot_of pool with
          | Some s, Some p => Some (s, p)
          | _, _ => None
          end
      | _ => None
      end
  | None => None
  end.

(** [team.<s>.<p>], [None] when the slot is absent. *)
Definition field (sp : Composition.slot * SummonerInformation.slot) (team : Composition.t)
  : option pyvalue :=
  SummonerInformation.read (snd sp) (Composition.read (fst sp) team).

(** The ten pool fields of a roster, in the order of the dictionary. *)
Definition pool_fields : list (Composition.slot * SummonerInformation.slot) :=
  map (fun s => (s, SummonerInformation.ChampionPool))
      [Composition.Top; Composition.Jungle; Composition.Mid; Composition.Adc;
       Composition.Support] ++
  map (fun s => (s, SummonerInformation.MatchupPool))
      [Composition.Top; Composition.Jungle; Composition.Mid; Composition.Adc;
       Composition.Support].

(** A two-row champion table and a scraper that has not loaded it yet, for
    the examples. *)
Definition example_table : DataFrame :=
  [ {| row_name := "Thresh"; row_slug := "thresh"; row_id := 412 |};
    {| row_name := "Ahri"; row_slug := "ahri"; row_id := 103 |} ].

Definition example_scraper : GGScraper.t := GGScraper.__init__ "sha-c" "sha-m" 200 5.

(** The roster of [main.py] and a Remote Data Source that answers every call
    with one summary, except the call for the mid player's matchup pool (the
    call submitted eighth), which raises. *)
Definition ally_names (s : Composition.slot) : pyvalue :=
  match s with
  | Composition.Top => PyStr "kal1brate"
  | Composition.Jungle => PyStr "Fizsie"
  | Composition.Mid => PyStr "thef1tnessgram"
  | Composition.Adc => PyStr "AmbientSolace"
  | Composition.Support => PyStr "imwangingrn"
  end.

Definition ally : Composition.t := fresh_roster (fun _ => PyStr "NA") ally_names.

Definition mid_matchup_fails (i : nat) (c : Call) : result (list ChampionSummary.t) :=
  if Nat.eqb i 7 then Raise (OtherException "ConnectionError") else Return [thresh].

(** Two completion orders: the order of submission and its reverse. *)
Definition in_submission_order (fs : list Future) : list Future := fs.
Definition in_reverse_order (fs : list Future) : list Future := rev fs.

(** Every pool slot that holds a value holds one that passed the guard. *)
Definition guarded (e : SummonerInformation.t) : Prop :=
  forall s v,
    s = SummonerInformation.ChampionPool \/ s = SummonerInformation.MatchupPool ->
    SummonerInformation.read s e = Some v -> SummonerInformation.check v = true.

(** The first row of a table with a given identifier or name. *)
Definition find_name (table : DataFrame) (riot_id : Z) : option string :=
  match filter (fun r => Z.eqb (row_id r) riot_id) table with
  | r :: _ => Some (row_name r)
  | [] => None
  end.

Definition find_id (table : DataFrame) (name : string) : option Z :=
  match filter (fun r => row_name r =? name) table with
  | r :: _ => Some (row_id r)
  | [] => None
  end.

(** A table in which a name repeats and the identifiers are unique. *)
Definition twin_table : DataFrame :=
  [ {| row_name := "Thresh"; row_slug := "thresh"; row_id := 412 |};
    {| row_name := "Thresh"; row_slug := "thresh-2"; row_id := 999 |} ].

(** The summary [_get_pool] builds from an item of the answer and the name
    found for its [championId]. *)
Definition summary_of (champion : string) (item : Item) : ChampionSummary.t :=
  ChampionSummary.mk champion (item_role item) (item_csm item) (item_goldDiff15 item)
    (item_kda_k item) (item_kda_d item) (item_kda_a item)
    (item_damagePerMinute item) (item_kp item)
    (item_looses item) (item_wins item) (item_lp item).

(** An item of an answer, for the examples. *)
Definition thresh_item : Item :=
  {| item_championId := 412; item_role := "SUPPORT"; item_csm := 1.5;
     item_goldDiff15 := (-120.5); item_kda_k := 1.25; item_kda_d := 5;
     item_kda_a := 12.5; item_damagePerMinute := 310; item_kp := 0.625;
     item_looses := 3; item_wins := 7; item_lp := 42 |}.

(** The roster whose entities have the given identities and pool slots. *)
Definition roster (region name : Composition.slot -> pyvalue)
                  (pool against : Composition.slot -> option pyvalue) : Composition.t :=
  roster_of (fun s => SummonerInformation.mk (Some (region s)) (Some (name s))
                                             (pool s) (against s)).

(** The call [inform] submits for a pool function and a slot of the roster,
    and its place in the dictionary. *)
Definition call_of (region name : Composition.slot -> pyvalue)
                   (fn : pool_fn) (s : Composition.slot) : Call :=
  {| call_fn := fn; call_summoner := name s; call_region := region s;
     call_role := role_of s |}.

Definition index_of (fn : pool_fn) (s : Composition.slot) : nat :=
  (match fn with get_champion_pool => 0 | get_matchup_pool => 5 end +
   match s with
   | Composition.Top => 0
   | Composition.Jungle => 1
   | Composition.Mid => 2
   | Composition.Adc => 3
   | Composition.Support => 4
   end)%nat.

(** What a pool slot holds once the result of its call was assigned. *)
Definition fetched (remote : nat -> Call -> result (list ChampionSummary.t))
                   (region name : Composition.slot -> pyvalue)
                   (fn : pool_fn) (s : Composition.slot) : option pyvalue :=
  match remote (index_of fn s) (call_of region name fn s) with
  | Return stats => Some (PyList (map PySummary stats))
  | Raise _ => None
  end.

(** The roster in which every pool slot holds the result of its call. *)
Definition enriched (remote : nat -> Call -> result (list ChampionSummary.t))
                    (region name : Composition.slot -> pyvalue) : Composition.t :=
  roster region name (fetched remote region name get_champion_pool)
                     (fetched remote region name get_matchup_pool).

(** The query [_get_pool] posts for a scraper and the arguments of a call,
    [riot_id] being the identifier found for the champion filter. *)
Definition pool_query (self : GGScraper.t) (operation : string)
                      (summoner region : pyvalue) (riot_id : option Z)
                      (queue role : option string) : Query :=
  {| operationName := operation;
     var_top := GGScraper.max_games self;
     var_mode := if operation =? "LolProfilePageChampionsPoolQuery"
                 then "Best" else "Worst";
     var_summonerName := summoner;
     var_region := region;
     var_cChampionId := riot_id;
     var_cQueue := queue;
     var_cRolename := role;
     var_cSeasonId := None;
     var_cSortDirection := "DESC";
     var_cSortField := "GAMES";
     var_skip := 0;
     persistedQuery_version := 1;
     persistedQuery_sha256Hash :=
       if operation =? "LolProfilePageChampionsPoolQuery"
       then GGScraper.SHA_C self else GGScraper.SHA_M self |}.

(** What an item of the answer becomes: the summary with the name of the
    first row of the table that has the item's [championId]. *)
Definition becomes (table : DataFrame) (item : Item) (c : ChampionSummary.t) : Prop :=
  exists champion,
    find_name table (item_championId item) = Some champion /\ c = summary_of champion item.

(** The pool slot a pool function fills, and the future [inform] creates for
    a pool function and a slot of the roster. *)
Definition pool_slot (fn : pool_fn) : SummonerInformation.slot :=
  match fn with
  | get_champion_pool => SummonerInformation.ChampionPool
  | get_matchup_pool => SummonerInformation.MatchupPool
  end.

Definition future_of (remote : nat -> Call -> result (list ChampionSummary.t))
                     (region name : Composition.slot -> pyvalue)
                     (fn : pool_fn) (s : Composition.slot) : Future :=
  GGScraper.submit remote (index_of fn s) (call_of region name fn s).

(** * Properties *)

Import SummonerInformation.

(** ** Slots *)

Lemma slot_of_slot_name : forall s, slot_of (slot_name s) = Some s.
Proof. destruct s; reflexivity. Qed.

Lemma slot_of_inv : forall attr s, slot_of attr = Some s -> attr = slot_name s.
Proof.
  unfold slot_of; intros attr s.
  destruct (attr =? "region") eqn:E1; [apply String.eqb_eq in E1; intros [= <-]; exact E1|].
  destruct (attr =? "name") eqn:E2; [apply String.eqb_eq in E2; intros [= <-]; exact E2|].
  destruct (attr =? "champion_pool") eqn:E3; [apply String.eqb_eq in E3; intros [= <-]; exact E3|].
  destruct (attr =? "matchup_pool") eqn:E4; [apply String.eqb_eq in E4; intros [= <-]; exact E4|].
  discriminate.
Qed.

Lemma read_write_same : forall s v e, read s (write s v e) = Some v.
Proof. destruct s; reflexivity. Qed.

Lemma read_write_other : forall s s' v e, s <> s' -> read s (write s' v e) = read s e.
Proof. destruct s, s'; intros; try reflexivity; congruence. Qed.

(** ** [__setattr__], case by case *)

(** An assignment either leaves the object as it was, or fills a slot that
    was empty and returns; a pool slot is filled only with a value that
    passed the guard. *)
Lemma setattr_cases : forall attr v e r e',
  __setattr__ attr v e = (r, e') ->
  e' = e /\ (exists x, r = Raise x) \/
  exists s, attr = slot_name s /\ read s e = None /\ e' = write s v e /\ r = Return tt /\
            ((s = ChampionPool \/ s = MatchupPool) -> check v = true).
Proof.
  intros attr v e r e' H.
  unfold __setattr__, hasattr, object___setattr__ in H.
  destruct (slot_of attr) as [s|] eqn:Hs.
  - apply slot_of_inv in Hs; subst attr.
    destruct (read s e) eqn:Hr.
    + injection H as <- <-; left; eauto.
    + destruct s; cbn in H.
      * injection H as <- <-; right; exists Region; repeat split; auto.
        intros [?|?]; discriminate.
      * injection H as <- <-; right; exists Name; repeat split; auto.
        intros [?|?]; discriminate.
      * destruct (check v) eqn:Hc; cbn in H; injection H as <- <-.
        -- right; exists ChampionPool; repeat split; auto.
        -- left; eauto.
      * destruct (check v) eqn:Hc; cbn in H; injection H as <- <-.
        -- right; exists MatchupPool; repeat split; auto.
        -- left; eauto.
  - destruct (existsb (String.eqb attr) class_namespace).
    + injection H as <- <-; left; eauto.
    + destruct (existsb (String.eqb attr) ["champion_pool"; "matchup_pool"]);
        [destruct (negb (check v))|]; injection H as <- <-; left; eauto.
Qed.

(** A slot that holds a value keeps it through any assignment. *)
Lemma setattr_keeps : forall attr v e r e' s x,
  __setattr__ attr v e = (r, e') -> read s e = Some x -> read s e' = Some x.
Proof.
  intros attr v e r e' s x H Hx.
  apply setattr_cases in H as [[-> _]|(s' & _ & Hnone & -> & _)]; [exact Hx|].
  rewrite read_write_other; [exact Hx|congruence].
Qed.

(** Assigning a slot that holds a value raises and changes nothing. *)
Lemma setattr_set_slot : forall s v e x,
  read s e = Some x -> __setattr__ (slot_name s) v e = (Raise TypeError_reassignment, e).
Proof.
  intros s v e x Hx. unfold __setattr__, hasattr.
  rewrite slot_of_slot_name, Hx. reflexivity.
Qed.

Lemma assignments_keep : forall ops e s x,
  read s e = Some x -> read s (assignments ops e) = Some x.
Proof.
  induction ops as [|[attr v] ops IH]; intros e s x Hx; [exact Hx|].
  cbn. apply IH.
  destruct (__setattr__ attr v e) as [r e'] eqn:H. cbn.
  eapply setattr_keeps; eauto.
Qed.

Lemma slot_name_inj : forall s s', slot_name s = slot_name s' -> s = s'.
Proof.
  intros s s' H. pose proof (slot_of_slot_name s) as Hs.
  rewrite H, slot_of_slot_name in Hs. congruence.
Qed.

(** A value that passes the guard is iterable, so it is not [None]. *)
Lemma check_not_None : forall v, check v = true -> is_None v = false.
Proof. destruct v; cbn; intros; congruence. Qed.

Lemma check_rejects : forall v items x,
  iter v = Some items -> In x items -> isinstance_ChampionSummary x = false -> check v = false.
Proof.
  intros v items x Hi Hin Hx. unfold check. rewrite Hi.
  destruct (forallb isinstance_ChampionSummary items) eqn:E; [|reflexivity].
  rewrite forallb_forall in E. rewrite (E x Hin) in Hx. discriminate.
Qed.

(** A list of summaries, as a fetch returns it, passes the guard. *)
Lemma check_summaries : forall stats, check (PyList (map PySummary stats)) = true.
Proof.
  intros stats. unfold check; cbn. apply forallb_forall.
  intros x Hx. apply in_map_iff in Hx as (c & <- & _). reflexivity.
Qed.

(** When both pools hold values that passed the guard, [bool(entity)] is
    [True]. *)
Lemma bool_true_when_both_set : forall e p m,
  champion_pool e = Some p -> matchup_pool e = Some m ->
  check p = true -> check m = true ->
  __bool__ e = (Return true, e).
Proof.
  intros e p m Hp Hm Cp Cm.
  unfold __bool__, bind, getattr; cbn. rewrite Hp.
  rewrite (check_not_None p Cp). rewrite Hm. unfold ret.
  rewrite (check_not_None m Cm). reflexivity.
Qed.

(** Both pools assigned the empty list: [bool(entity)] is [True]. *)
Example bool_true_on_empty_pools : forall region name,
  __bool__ (assignments [("champion_pool", PyList []); ("matchup_pool", PyList [])]
              (mk (Some region) (Some name) None None))
  = (Return true, mk (Some region) (Some name) (Some (PyList [])) (Some (PyList []))).
Proof. reflexivity. Qed.

(** ** Entities: construction, write-once pools, fixed identity *)

(** C5. For every region and name, [SummonerInformation(region, name)]
    returns without raising, and the entity it returns has its [region] and
    [name] slots equal to the arguments and its [champion_pool] and
    [matchup_pool] slots absent (not set, rather than set to an empty
    value). *)
Theorem new_entity_has_identity_and_no_pools : forall region name : pyvalue,
  new region name = Return (mk (Some region) (Some name) None None).
Proof. reflexivity. Qed.

(** C3. For every entity and every pair of values, once a first assignment
    to [champion_pool] returned, a second assignment raises the
    reassignment [TypeError], leaves the object as it was, and the slot
    still holds the first value; the same for [matchup_pool]. *)
Theorem pool_is_write_once : forall s : slot,
  s = ChampionPool \/ s = MatchupPool ->
  forall (e e1 : t) (v1 v2 : pyvalue),
    __setattr__ (slot_name s) v1 e = (Return tt, e1) ->
    __setattr__ (slot_name s) v2 e1 = (Raise TypeError_reassignment, e1) /\
    read s e1 = Some v1.
Proof.
  intros s _ e e1 v1 v2 H.
  assert (Hr : read s e1 = Some v1).
  { apply setattr_cases in H as [[_ [x Hx]]|(s' & Hs & _ & -> & _)]; [discriminate|].
    apply slot_name_inj in Hs; subst s'. apply read_write_same. }
  split; [|exact Hr]. eapply setattr_set_slot; eauto.
Qed.

Lemma pool_is_write_once_witness :
  (__setattr__ "champion_pool" (PyList [PySummary thresh])
     (mk (Some (PyStr "NA")) (Some (PyStr "Fizsie")) None None)
   = (Return tt, mk (Some (PyStr "NA")) (Some (PyStr "Fizsie"))
                    (Some (PyList [PySummary thresh])) None)) /\
  (__setattr__ "champion_pool" (PyList [])
     (mk (Some (PyStr "NA")) (Some (PyStr "Fizsie")) (Some (PyList [PySummary thresh])) None)
   = (Raise TypeError_reassignment,
      mk (Some (PyStr "NA")) (Some (PyStr "Fizsie")) (Some (PyList [PySummary thresh])) None)) /\
  champion_pool (mk (Some (PyStr "NA")) (Some (PyStr "Fizsie"))
                    (Some (PyList [PySummary thresh])) None)
  = Some (PyList [PySummary thresh]).
Proof.
  split; [reflexivity|].
  apply (pool_is_write_once ChampionPool (or_introl eq_refl)
           (mk (Some (PyStr "NA")) (Some (PyStr "Fizsie")) None None)).
  reflexivity.
Defined.

(** C4. For every entity whose pool slot is absent and every iterable value
    with at least one element that is not a [ChampionSummary], the
    assignment to [champion_pool] raises the [TypeError] of the type guard
    and leaves the object as it was, so the slot is still absent; the same
    for [matchup_pool]. *)
Theorem pool_rejects_non_summaries : forall s : slot,
  s = ChampionPool \/ s = MatchupPool ->
  forall (e : t) (value : pyvalue) (items : list pyvalue),
    read s e = None ->
    iter value = Some items ->
    (exists x, In x items /\ isinstance_ChampionSummary x = false) ->
    __setattr__ (slot_name s) value e = (Raise (TypeError_not_summaries value), e) /\
    hasattr e (slot_name s) = false.
Proof.
  intros s Hs e value items Hnone Hi (x & Hin & Hx).
  assert (Hh : hasattr e (slot_name s) = false).
  { unfold hasattr. rewrite slot_of_slot_name, Hnone. reflexivity. }
  split; [|exact Hh].
  unfold __setattr__. rewrite Hh, (check_rejects value items x Hi Hin Hx).
  destruct Hs as [-> | ->]; reflexivity.
Qed.

Lemma pool_rejects_non_summaries_witness :
  __setattr__ "champion_pool" (PyList [PySummary thresh; PyStr "not-a-summary"])
    (mk (Some (PyStr "NA")) (Some (PyStr "Fizsie")) None None)
  = (Raise (TypeError_not_summaries (PyList [PySummary thresh; PyStr "not-a-summary"])),
     mk (Some (PyStr "NA")) (Some (PyStr "Fizsie")) None None) /\
  hasattr (mk (Some (PyStr "NA")) (Some (PyStr "Fizsie")) None None) "champion_pool" = false.
Proof.
  apply (pool_rejects_non_summaries ChampionPool (or_introl eq_refl)
           (mk (Some (PyStr "NA")) (Some (PyStr "Fizsie")) None None)
           (PyList [PySummary thresh; PyStr "not-a-summary"])
           [PySummary thresh; PyStr "not-a-summary"]).
  - reflexivity.
  - reflexivity.
  - exists (PyStr "not-a-summary"). split; [right; left; reflexivity | reflexivity].
Defined.

(** C9. For every entity, [region] and [name] are fixed at construction:
    whatever assignments were attempted on the entity since, an assignment
    to either field raises the reassignment [TypeError] and leaves the
    object as it was, and both fields still hold the values given to the
    constructor. *)
Theorem identity_is_fixed : forall (region name : pyvalue) (ops : list (string * pyvalue))
                                   (value : pyvalue),
  exists e0, new region name = Return e0 /\
    let e := assignments ops e0 in
    __setattr__ "region" value e = (Raise TypeError_reassignment, e) /\
    __setattr__ "name" value e = (Raise TypeError_reassignment, e) /\
    SummonerInformation.region e = Some region /\
    SummonerInformation.name e = Some name.
Proof.
  intros region name ops value.
  exists (mk (Some region) (Some name) None None). split; [reflexivity|]. cbv zeta.
  set (e := assignments ops _).
  assert (Hr : read Region e = Some region) by (apply assignments_keep; reflexivity).
  assert (Hn : read Name e = Some name) by (apply assignments_keep; reflexivity).
  repeat split.
  - exact (setattr_set_slot Region value e region Hr).
  - exact (setattr_set_slot Name value e name Hn).
  - exact Hr.
  - exact Hn.
Qed.

(** C2. [bool(entity)] on an entity whose [champion_pool] slot is absent
    raises [AttributeError] instead of returning [False], whatever the
    [matchup_pool] slot holds. *)
Theorem bool_raises_when_pool_absent : forall e : t,
  champion_pool e = None ->
  __bool__ e = (Raise (AttributeError "champion_pool"), e).
Proof.
  intros e H. unfold __bool__, bind, getattr; cbn. rewrite H. reflexivity.
Qed.

Lemma bool_raises_when_pool_absent_witness :
  new (PyStr "NA") (PyStr "Fizsie") = Return (mk (Some (PyStr "NA")) (Some (PyStr "Fizsie")) None None) /\
  __bool__ (mk (Some (PyStr "NA")) (Some (PyStr "Fizsie")) None None)
  = (Raise (AttributeError "champion_pool"),
     mk (Some (PyStr "NA")) (Some (PyStr "Fizsie")) None None).
Proof.
  split; [reflexivity|].
  apply (bool_raises_when_pool_absent (mk (Some (PyStr "NA")) (Some (PyStr "Fizsie")) None None)).
  reflexivity.
Defined.

(** ** The champion table *)

Import GGScraper.

Lemma loc_filter : forall {A} (table : DataFrame) (p : champion_row -> bool)
                          (column : champion_row -> A),
  loc table (map p table) column = map column (filter p table).
Proof.
  intros A table p column. unfold loc.
  induction table as [|r table IH]; [reflexivity|].
  cbn. destruct (p r); cbn; rewrite IH; reflexivity.
Qed.

Lemma NoDup_map_eq : forall {A B} (f : A -> B) (l : list A) x y,
  NoDup (map f l) -> In x l -> In y l -> f x = f y -> x = y.
Proof.
  intros A B f l x y. induction l as [|z l IH]; cbn; [tauto|].
  intros Hnd Hx Hy Hf. inversion Hnd as [|? ? Hz Hnd']; subst.
  destruct Hx as [->|Hx], Hy as [->|Hy]; auto.
  - exfalso. apply Hz. rewrite Hf. apply in_map. exact Hy.
  - exfalso. apply Hz. rewrite <- Hf. apply in_map. exact Hx.
Qed.

(** The first row a predicate selects, when some row of the table
    satisfies it. *)
Lemma filter_first : forall (p : champion_row -> bool) (table : DataFrame) r,
  In r table -> p r = true ->
  exists r0 rest, filter p table = r0 :: rest /\ In r0 table /\ p r0 = true.
Proof.
  intros p table r Hin Hp.
  destruct (filter p table) as [|r0 rest] eqn:E.
  - assert (H : In r (filter p table)) by (apply filter_In; auto).
    rewrite E in H. destruct H.
  - exists r0, rest. split; [reflexivity|].
    apply filter_In. rewrite E. left; reflexivity.
Qed.

(** Once the table is loaded, [df] returns it and changes nothing. *)
Lemma df_cached : forall response response' self table self',
  df response self = (Return table, self') ->
  df response' self' = (Return table, self').
Proof.
  intros response response' self table self' H. unfold df in *.
  destruct (_df self) as [t0|] eqn:E.
  - injection H as <- <-. rewrite E. reflexivity.
  - destruct response as [t0|e]; [|discriminate].
    injection H as <- <-. reflexivity.
Qed.

Lemma to_id_loaded : forall response self table name,
  df response self = (Return table, self) ->
  to_id response name self
  = first (map row_id (filter (fun r => row_name r =? name) table)) self.
Proof.
  intros response self table name H. unfold to_id, bind.
  rewrite H, H, loc_filter. reflexivity.
Qed.

Lemma from_id_loaded : forall response self table riot_id,
  df response self = (Return table, self) ->
  from_id response riot_id self
  = first (map row_name (filter (fun r => Z.eqb (row_id r) riot_id) table)) self.
Proof.
  intros response self table riot_id H. unfold from_id, bind.
  rewrite H, H, loc_filter. reflexivity.
Qed.

(** C7. The two lookups are mutual inverses on the scraper's champion table
    when its names and its identifiers are unique: for every name of the
    table, [from_id(to_id(name))] returns that name, and for every
    identifier of the table, [to_id(from_id(id))] returns that identifier.
    The table is the one the first access to [df] loaded; later answers of
    the champion query are not read. *)
Theorem to_id_from_id_inverse :
  forall (first_response : result DataFrame) (self0 self : GGScraper.t) (table : DataFrame),
    df first_response self0 = (Return table, self) ->
    NoDup (map row_name table) ->
    NoDup (map row_id table) ->
    forall later later' : result DataFrame,
      (forall name, In name (map row_name table) ->
         exists riot_id, to_id later name self = (Return riot_id, self) /\
                         from_id later' riot_id self = (Return name, self)) /\
      (forall riot_id, In riot_id (map row_id table) ->
         exists name, from_id later riot_id self = (Return name, self) /\
                      to_id later' name self = (Return riot_id, self)).
Proof.
  intros first_response self0 self table Hdf Hnames Hids later later'.
  assert (H1 : df later self = (Return table, self)) by (eapply df_cached; eauto).
  assert (H2 : df later' self = (Return table, self)) by (eapply df_cached; eauto).
  split.
  - intros name Hin. apply in_map_iff in Hin as (r & Hr & Hin).
    destruct (filter_first (fun r => row_name r =? name) table r Hin) as (r0 & rest & E & Hin0 & Hp0).
    { rewrite Hr. apply String.eqb_refl. }
    apply String.eqb_eq in Hp0.
    exists (row_id r0). split.
    + rewrite (to_id_loaded later self table name H1), E. reflexivity.
    + rewrite (from_id_loaded later' self table (row_id r0) H2).
      destruct (filter_first (fun r => Z.eqb (row_id r) (row_id r0)) table r0 Hin0)
        as (r1 & rest1 & E1 & Hin1 & Hp1); [apply Z.eqb_refl|].
      apply Z.eqb_eq in Hp1.
      rewrite E1. cbn. unfold ret.
      rewrite (NoDup_map_eq row_id table r1 r0 Hids Hin1 Hin0 Hp1), Hp0. reflexivity.
  - intros riot_id Hin. apply in_map_iff in Hin as (r & Hr & Hin).
    destruct (filter_first (fun r => Z.eqb (row_id r) riot_id) table r Hin) as (r0 & rest & E & Hin0 & Hp0).
    { rewrite Hr. apply Z.eqb_refl. }
    apply Z.eqb_eq in Hp0.
    exists (row_name r0). split.
    + rewrite (from_id_loaded later self table riot_id H1), E. reflexivity.
    + rewrite (to_id_loaded later' self table (row_name r0) H2).
      destruct (filter_first (fun r => row_name r =? row_name r0) table r0 Hin0)
        as (r1 & rest1 & E1 & Hin1 & Hp1); [apply String.eqb_refl|].
      apply String.eqb_eq in Hp1.
      rewrite E1. cbn. unfold ret.
      rewrite (NoDup_map_eq row_name table r1 r0 Hnames Hin1 Hin0 Hp1), Hp0. reflexivity.
Qed.

Lemma to_id_from_id_inverse_witness :
  df (Return example_table) example_scraper
  = (Return example_table,
     GGScraper.mk "sha-c" "sha-m" 200 5 (Some example_table)) /\
  exists riot_id,
    to_id (Raise (OtherException "ConnectionError")) "Ahri"
      (GGScraper.mk "sha-c" "sha-m" 200 5 (Some example_table))
    = (Return riot_id, GGScraper.mk "sha-c" "sha-m" 200 5 (Some example_table)) /\
    from_id (Return []) riot_id
      (GGScraper.mk "sha-c" "sha-m" 200 5 (Some example_table))
    = (Return "Ahri", GGScraper.mk "sha-c" "sha-m" 200 5 (Some example_table)).
Proof.
  split; [reflexivity|].
  refine (proj1 (to_id_from_id_inverse (Return example_table) example_scraper
                   (GGScraper.mk "sha-c" "sha-m" 200 5 (Some example_table))
                   example_table eq_refl _ _
                   (Raise (OtherException "ConnectionError")) (Return [])) "Ahri" _).
  - repeat constructor; cbn; intuition discriminate.
  - repeat constructor; cbn; intuition discriminate.
  - cbn. auto.
Defined.

(** A name the table does not hold: the lookup raises [IndexError]. *)
Example to_id_unknown_name :
  to_id (Return example_table) "Teemo" example_scraper
  = (Raise IndexError, GGScraper.mk "sha-c" "sha-m" 200 5 (Some example_table)).
Proof. reflexivity. Qed.

(** ** The fetch helper *)

(** C8. For every future, [_fetch] returns the task's result when the task
    returned one, and returns [None] when the task raised an exception that
    is an instance of [Exception], whatever the error (also one unrelated to
    the network); it raises only when the task's exception is outside
    [Exception] ([SystemExit], [KeyboardInterrupt], [GeneratorExit]), and
    then it raises that same exception. *)
Theorem fetch_returns_result_or_None : forall f : Future,
  (forall v, Future_result f = Return v -> _fetch f = Return v) /\
  (forall e, Future_result f = Raise e -> isinstance_Exception e = true ->
             _fetch f = Return PyNone) /\
  (forall e, Future_result f = Raise e -> isinstance_Exception e = false ->
             _fetch f = Raise e).
Proof.
  intros f. unfold _fetch.
  destruct (Future_result f) as [v|e].
  - split; [|split].
    + intros v' Hv. injection Hv as <-. reflexivity.
    + intros e He. discriminate He.
    + intros e He. discriminate He.
  - split; [|split].
    + intros v Hv. discriminate Hv.
    + intros e' He' Hc. injection He' as <-. rewrite Hc. reflexivity.
    + intros e' He' Hc. injection He' as <-. rewrite Hc. reflexivity.
Qed.

Lemma fetch_returns_result_or_None_witness :
  _fetch {| fut_id := 7;
            fut_call := {| call_fn := get_matchup_pool; call_summoner := PyStr "thef1tnessgram";
                           call_region := PyStr "NA"; call_role := "MID" |};
            fut_outcome := Raise (OtherException "ZeroDivisionError") |}
  = Return PyNone.
Proof.
  exact (proj1 (proj2 (fetch_returns_result_or_None
            {| fut_id := 7;
               fut_call := {| call_fn := get_matchup_pool;
                              call_summoner := PyStr "thef1tnessgram";
                              call_region := PyStr "NA"; call_role := "MID" |};
               fut_outcome := Raise (OtherException "ZeroDivisionError") |}))
            (OtherException "ZeroDivisionError") eq_refl eq_refl).
Defined.

(** A task that ended in [SystemExit]: the handler [except Exception] does
    not catch it, and [_fetch] raises. *)
Lemma fetch_raises_SystemExit :
  _fetch {| fut_id := 7;
            fut_call := {| call_fn := get_matchup_pool; call_summoner := PyStr "thef1tnessgram";
                           call_region := PyStr "NA"; call_role := "MID" |};
            fut_outcome := Raise (SystemExiting "SystemExit") |}
  = Raise (SystemExiting "SystemExit").
Proof. reflexivity. Qed.

(** ** The ten fetches *)

(** The dictionary depends on the Remote Data Source through the ten calls
    only. *)
Lemma submit_all_ext :
  forall (remote remote' : nat -> Call -> result (list ChampionSummary.t))
         (region name : Composition.slot -> pyvalue)
         (pool against : Composition.slot -> option pyvalue),
    (forall fn s,
       remote' (index_of fn s)
               {| call_fn := fn; call_summoner := name s;
                  call_region := region s; call_role := role_of s |}
       = remote (index_of fn s)
                {| call_fn := fn; call_summoner := name s;
                   call_region := region s; call_role := role_of s |}) ->
    submit_all remote'
      (roster_of (fun s => SummonerInformation.mk (Some (region s)) (Some (name s))
                                                  (pool s) (against s)))
    = submit_all remote
        (roster_of (fun s => SummonerInformation.mk (Some (region s)) (Some (name s))
                                                    (pool s) (against s))).
Proof.
  intros remote remote' region name pool against H.
  pose proof (H get_champion_pool Composition.Top) as H0.
  pose proof (H get_champion_pool Composition.Jungle) as H1.
  pose proof (H get_champion_pool Composition.Mid) as H2.
  pose proof (H get_champion_pool Composition.Adc) as H3.
  pose proof (H get_champion_pool Composition.Support) as H4.
  pose proof (H get_matchup_pool Composition.Top) as H5.
  pose proof (H get_matchup_pool Composition.Jungle) as H6.
  pose proof (H get_matchup_pool Composition.Mid) as H7.
  pose proof (H get_matchup_pool Composition.Adc) as H8.
  pose proof (H get_matchup_pool Composition.Support) as H9.
  cbn in H0, H1, H2, H3, H4, H5, H6, H7, H8, H9.
  unfold submit_all, entry, bind, ret, Composition.on, getattr, submit, roster_of.
  cbn. rewrite H0, H1, H2, H3, H4, H5, H6, H7, H8, H9. reflexivity.
Qed.

(** C6. For every five-entity roster, one run of [inform] schedules exactly
    ten fetch tasks, one per pair of a pool function and an entity: each
    entity gets one [get_champion_pool] task and one [get_matchup_pool]
    task, each invoked with that entity's own name and region and the role
    of its slot.  The dictionary [fs] the run builds has ten entries with
    distinct futures; their calls are the ten (function, entity) calls;
    the outcome each future carries is what the Remote Data Source does
    with exactly that call; their labels are the ten of the source; the
    run is the loop over these futures, in the order [as_completed] yields
    them, followed by the final [all]; and the run consults the Remote
    Data Source at these ten calls only: two sources that agree on them
    give the same run. *)
Theorem inform_submits_ten_calls :
  forall (remote : nat -> Call -> result (list ChampionSummary.t))
         (as_completed : list Future -> list Future)
         (region name : Composition.slot -> pyvalue)
         (pool against : Composition.slot -> option pyvalue),
    exists fs,
      submit_all remote
        (roster_of (fun s => SummonerInformation.mk (Some (region s)) (Some (name s))
                                                    (pool s) (against s)))
      = (Return fs,
         roster_of (fun s => SummonerInformation.mk (Some (region s)) (Some (name s))
                                                    (pool s) (against s))) /\
      List.length fs = 10 /\
      NoDup (map (fun p => fut_id (fst p)) fs) /\
      map (fun p => fut_call (fst p)) fs
      = map (fun q => {| call_fn := fst q; call_summoner := name (snd q);
                         call_region := region (snd q); call_role := role_of (snd q) |})
            (list_prod [get_champion_pool; get_matchup_pool]
                       [Composition.Top; Composition.Jungle; Composition.Mid;
                        Composition.Adc; Composition.Support]) /\
      map (fun p => Future_result (fst p)) fs
      = map (fun q =>
               match remote (index_of (fst q) (snd q))
                            {| call_fn := fst q; call_summoner := name (snd q);
                               call_region := region (snd q);
                               call_role := role_of (snd q) |} with
               | Return stats => Return (PyList (map PySummary stats))
               | Raise e => Raise e
               end)
            (list_prod [get_champion_pool; get_matchup_pool]
                       [Composition.Top; Composition.Jungle; Composition.Mid;
                        Composition.Adc; Composition.Support]) /\
      map snd fs
      = ["top.champion_pool"; "jungle.champion_pool"; "mid.champion_pool";
         "adc.champion_pool"; "support.champion_pool";
         "top.matchup_pool"; "jungle.matchup_pool"; "mid.matchup_pool";
         "adc.matchup_pool"; "support.matchup_pool"] /\
      inform remote as_completed
        (roster_of (fun s => SummonerInformation.mk (Some (region s)) (Some (name s))
                                                    (pool s) (against s)))
      = (for_each (store fs) (as_completed (map fst fs)) ;;
         fun team => (all_bool (Composition.__iter__ team), team))
          (roster_of (fun s => SummonerInformation.mk (Some (region s)) (Some (name s))
                                                      (pool s) (against s))) /\
      forall remote' : nat -> Call -> result (list ChampionSummary.t),
        (forall fn s,
           remote' (index_of fn s)
                   {| call_fn := fn; call_summoner := name s;
                      call_region := region s; call_role := role_of s |}
           = remote (index_of fn s)
                    {| call_fn := fn; call_summoner := name s;
                       call_region := region s; call_role := role_of s |}) ->
        inform remote' as_completed
          (roster_of (fun s => SummonerInformation.mk (Some (region s)) (Some (name s))
                                                      (pool s) (against s)))
        = inform remote as_completed
            (roster_of (fun s => SummonerInformation.mk (Some (region s)) (Some (name s))
                                                        (pool s) (against s))).
Proof.
  intros remote as_completed region name pool against.
  eexists. split; [reflexivity|].
  split; [reflexivity|]. split; [|split; [reflexivity|]].
  { cbn. repeat constructor; cbn; intuition discriminate. }
  split; [reflexivity|]. split; [reflexivity|]. split; [reflexivity|].
  intros remote' H. unfold inform, bind.
  rewrite (submit_all_ext remote remote' region name pool against H). reflexivity.
Qed.

Lemma inform_submits_ten_calls_witness :
  inform (fun i c => if Nat.eqb i 10 then Raise ValueError else mid_matchup_fails i c)
         in_reverse_order ally
  = inform mid_matchup_fails in_reverse_order ally.
Proof.
  destruct (inform_submits_ten_calls mid_matchup_fails in_reverse_order
              (fun _ => PyStr "NA") ally_names (fun _ => None) (fun _ => None))
    as (fs & _ & _ & _ & _ & _ & _ & _ & H).
  apply (H (fun i c => if Nat.eqb i 10 then Raise ValueError else mid_matchup_fails i c)).
  intros fn s. destruct fn, s; reflexivity.
Defined.

(** ** The roster *)

Lemma roster_read_write_same : forall s e team,
  Composition.read s (Composition.write s e team) = e.
Proof. destruct s; reflexivity. Qed.

Lemma roster_read_write_other : forall s s' e team,
  s <> s' -> Composition.read s (Composition.write s' e team) = Composition.read s team.
Proof. destruct s, s'; intros; try reflexivity; congruence. Qed.

Lemma roster_write_read : forall s team,
  Composition.write s (Composition.read s team) team = team.
Proof. destruct s, team; reflexivity. Qed.

(** Reading a slot of an entity through the roster changes nothing. *)
Lemma on_getattr : forall s q team,
  snd (Composition.on s (getattr q) team) = team.
Proof.
  intros s q team. unfold Composition.on, getattr.
  destruct (read q (Composition.read s team)); cbn; apply roster_write_read.
Qed.

Lemma field_write_same : forall s p v team,
  field (s, p) (Composition.write s (write p v (Composition.read s team)) team) = Some v.
Proof.
  intros. unfold field; cbn. rewrite roster_read_write_same. apply read_write_same.
Qed.

Lemma field_write_other : forall sp s p v team,
  sp <> (s, p) ->
  field sp (Composition.write s (write p v (Composition.read s team)) team) = field sp team.
Proof.
  intros [s' p'] s p v team Hne. unfold field; cbn.
  destruct s, s'; cbn; try reflexivity;
    destruct p, p'; cbn; try reflexivity; congruence.
Qed.

(** ** One iteration of the loop of [inform] *)

(** With the label of [f] resolved, the body is one guarded assignment on
    the entity of the label. *)
Lemma store_target : forall fs f s p,
  target fs f = Some (s, p) ->
  store fs f
  = Composition.on s (value <- lift (_fetch f) ;; __setattr__ (slot_name p) value).
Proof.
  intros fs f s p H. unfold target in H. unfold store.
  destruct (dict_get fs f) as [label|]; [|discriminate].
  destruct (split "." label) as [|role [|pool [|? ?]]]; try discriminate.
  unfold Composition.on_attr.
  destruct (Composition.slot_of role) as [s'|]; [|discriminate].
  destruct (slot_of pool) as [p'|] eqn:Hp; [|discriminate].
  injection H as -> ->. apply slot_of_inv in Hp. subst pool. reflexivity.
Qed.

(** What the body does on a pool field that is still absent: the result of
    a task that returned is assigned when it passes the guard; for a task
    that raised an error, the body assigns [None], which the guard rejects,
    so the body raises [TypeError]. *)
Lemma store_on_absent_field : forall fs f s p team,
  target fs f = Some (s, p) ->
  p = ChampionPool \/ p = MatchupPool ->
  field (s, p) team = None ->
  store fs f team =
  match fut_outcome f with
  | Return v =>
      if check v
      then (Return tt, Composition.write s (write p v (Composition.read s team)) team)
      else (Raise (TypeError_not_summaries v), team)
  | Raise e =>
      if isinstance_Exception e
      then (Raise (TypeError_not_summaries PyNone), team)
      else (Raise e, team)
  end.
Proof.
  intros fs f s p team Ht Hp Hnone. unfold field in Hnone; cbn in Hnone.
  rewrite (store_target fs f s p Ht).
  unfold Composition.on, bind, lift, _fetch, Future_result.
  destruct (fut_outcome f) as [v|e].
  - unfold __setattr__, hasattr, object___setattr__.
    rewrite slot_of_slot_name, Hnone.
    destruct Hp as [-> | ->]; cbn; destruct (check v); cbn;
      rewrite ?roster_write_read; reflexivity.
  - destruct (isinstance_Exception e).
    + unfold __setattr__, hasattr. rewrite slot_of_slot_name, Hnone.
      destruct Hp as [-> | ->]; cbn; rewrite roster_write_read; reflexivity.
    + rewrite roster_write_read. reflexivity.
Qed.

(** Whatever the body does, a slot that holds a value keeps it. *)
Lemma store_keeps : forall fs f team r team' s q x,
  store fs f team = (r, team') ->
  read q (Composition.read s team) = Some x ->
  read q (Composition.read s team') = Some x.
Proof.
  intros fs f team r team' s q x H Hx. unfold store in H.
  destruct (dict_get fs f) as [label|]; [|injection H as <- <-; exact Hx].
  destruct (split "." label) as [|role [|pool [|? ?]]];
    try (injection H as <- <-; exact Hx).
  unfold Composition.on_attr in H.
  destruct (Composition.slot_of role) as [s'|]; [|injection H as <- <-; exact Hx].
  unfold Composition.on, bind, lift in H.
  destruct (_fetch f) as [v|e].
  - destruct (__setattr__ pool v (Composition.read s' team)) as [r1 e1] eqn:E.
    injection H as <- <-.
    destruct s, s'; cbn in *; try exact Hx; eapply setattr_keeps; eauto.
  - injection H as <- <-. rewrite roster_write_read. exact Hx.
Qed.

Lemma for_each_store_keeps : forall fs l team r team' s q x,
  for_each (store fs) l team = (r, team') ->
  read q (Composition.read s team) = Some x ->
  read q (Composition.read s team') = Some x.
Proof.
  intros fs l. induction l as [|f l IH]; intros team r team' s q x H Hx.
  - injection H as <- <-. exact Hx.
  - cbn in H. unfold bind in H.
    destruct (store fs f team) as [[[]|e] team1] eqn:E.
    + eapply IH; [exact H|]. eapply store_keeps; eauto.
    + injection H as <- <-. eapply store_keeps; eauto.
Qed.

(** ** The loop of [inform] *)

(** The loop over futures whose target fields are distinct and still
    absent: either every task returned, the loop returns and each target
    field holds its task's result while every other field is as before; or
    some task raised and the loop raises. *)
Lemma for_each_store : forall fs l team,
  NoDup (map (target fs) l) ->
  (forall f, In f l ->
     exists s p, target fs f = Some (s, p) /\ (p = ChampionPool \/ p = MatchupPool) /\
                 field (s, p) team = None) ->
  (forall f v, In f l -> fut_outcome f = Return v -> check v = true) ->
  exists r team', for_each (store fs) l team = (r, team') /\
    ((exists x, r = Raise x) /\ (exists f e, In f l /\ fut_outcome f = Raise e)
     \/
     r = Return tt /\
     (forall f, In f l ->
        exists v sp, fut_outcome f = Return v /\ check v = true /\
                     target fs f = Some sp /\ field sp team' = Some v) /\
     (forall sp, ~ In (Some sp) (map (target fs) l) -> field sp team' = field sp team)).
Proof.
  intros fs l. induction l as [|f l IH]; intros team Hnd Habs Hchk.
  - exists (Return tt), team. split; [reflexivity|]. right.
    split; [reflexivity|]. split; [intros f []|reflexivity].
  - inversion Hnd as [|? ? Hnotin Hnd']; subst.
    destruct (Habs f (or_introl eq_refl)) as (s & p & Ht & Hp & Hnone).
    cbn [for_each]. unfold bind at 1.
    rewrite (store_on_absent_field fs f s p team Ht Hp Hnone).
    destruct (fut_outcome f) as [v|e] eqn:Ef.
    + rewrite (Hchk f v (or_introl eq_refl) Ef).
      set (team1 := Composition.write s (write p v (Composition.read s team)) team).
      assert (Hframe : forall sp, sp <> (s, p) -> field sp team1 = field sp team).
      { intros sp Hsp. apply field_write_other. exact Hsp. }
      destruct (IH team1 Hnd') as (r & team' & Hrun & Hcases).
      * intros g Hg. destruct (Habs g (or_intror Hg)) as (s' & p' & Ht' & Hp' & Hnone').
        exists s', p'. repeat split; auto.
        rewrite Hframe; [exact Hnone'|].
        intros Heq. apply Hnotin. rewrite Ht, <- Heq, <- Ht'. apply in_map. exact Hg.
      * intros g w Hg. apply Hchk. right; exact Hg.
      * exists r, team'. split; [exact Hrun|].
        destruct Hcases as [[Hr (g & e & Hg & He)] | (Hr & Hset & Hother)].
        -- left. split; [exact Hr|]. exists g, e. split; [right; exact Hg|exact He].
        -- right. split; [exact Hr|]. split.
           ++ intros g [<-|Hg].
              ** exists v, (s, p). repeat split; auto.
                 { apply (Hchk f v (or_introl eq_refl) Ef). }
                 rewrite Hother; [|rewrite <- Ht; exact Hnotin].
                 apply field_write_same.
              ** apply Hset. exact Hg.
           ++ intros sp Hsp. rewrite Hother.
              ** apply Hframe. intros ->. apply Hsp. left. exact Ht.
              ** intros Hin. apply Hsp. right. exact Hin.
    + exists (Raise (if isinstance_Exception e then TypeError_not_summaries PyNone else e)), team.
      split; [destruct (isinstance_Exception e); reflexivity|].
      left. split; [eauto|]. exists f, e. split; [left; reflexivity|exact Ef].
Qed.

(** The final [all] on a roster whose ten pool fields hold values that
    passed the guard. *)
Lemma all_bool_complete : forall team,
  (forall sp, In sp pool_fields -> exists v, field sp team = Some v /\ check v = true) ->
  all_bool (Composition.__iter__ team) = Return true.
Proof.
  intros team H.
  assert (Hb : forall s, __bool__ (Composition.read s team)
                         = (Return true, Composition.read s team)).
  { intros s.
    destruct (H (s, ChampionPool)) as (p & Hp & Cp); [destruct s; cbn; tauto|].
    destruct (H (s, MatchupPool)) as (m & Hm & Cm); [destruct s; cbn; tauto|].
    eapply bool_true_when_both_set; eauto. }
  pose proof (Hb Composition.Top) as H1. pose proof (Hb Composition.Jungle) as H2.
  pose proof (Hb Composition.Mid) as H3. pose proof (Hb Composition.Adc) as H4.
  pose proof (Hb Composition.Support) as H5.
  cbn [Composition.read] in H1, H2, H3, H4, H5.
  unfold Composition.__iter__. cbn [all_bool].
  rewrite H1, H2, H3, H4, H5. reflexivity.
Qed.

(** ** A run of [inform] on a fresh roster *)

Section Run.

Variable remote : nat -> Call -> result (list ChampionSummary.t).
Variable as_completed : list Future -> list Future.
Hypothesis as_completed_permutes : forall l, Permutation (as_completed l) l.
Variables region name : Composition.slot -> pyvalue.

(** On a fresh roster the dictionary is built without raising, and a run
    is its loop followed by the final [all]. *)
Lemma inform_fresh :
  inform remote as_completed (fresh_roster region name)
  = match for_each (store (submitted remote (fresh_roster region name)))
                   (as_completed (scheduled remote (fresh_roster region name)))
                   (fresh_roster region name) with
    | (Return _, team') => (all_bool (Composition.__iter__ team'), team')
    | (Raise e, team') => (Raise e, team')
    end.
Proof. reflexivity. Qed.

Lemma submit_all_fresh :
  submit_all remote (fresh_roster region name)
  = (Return (submitted remote (fresh_roster region name)), fresh_roster region name).
Proof. reflexivity. Qed.

Lemma targets_scheduled :
  map (target (submitted remote (fresh_roster region name)))
      (scheduled remote (fresh_roster region name))
  = map Some pool_fields.
Proof. reflexivity. Qed.

Lemma pool_fields_NoDup : NoDup pool_fields.
Proof.
  repeat (constructor;
          [cbn; let H := fresh in
                intros H; repeat (destruct H as [H|H]; [discriminate H|]); exact H|]).
  constructor.
Qed.

Lemma pool_fields_absent : forall s p,
  In (s, p) pool_fields ->
  (p = ChampionPool \/ p = MatchupPool) /\ field (s, p) (fresh_roster region name) = None.
Proof.
  intros s p H. cbn in H.
  repeat (destruct H as [H|H]; [injection H as <- <-; split; [auto|reflexivity]|]).
  destruct H.
Qed.

Lemma pool_fields_all : forall s p,
  p = ChampionPool \/ p = MatchupPool -> In (s, p) pool_fields.
Proof. intros s p [-> | ->]; destruct s; cbn; tauto. Qed.

Lemma scheduled_checked : forall f v,
  In f (scheduled remote (fresh_roster region name)) ->
  fut_outcome f = Return v -> check v = true.
Proof.
  intros f v H. cbn in H.
  repeat (destruct H as [<-|H];
          [cbn; match goal with |- context [remote ?i ?c] => destruct (remote i c) end;
           intros Hv; [injection Hv as <-; apply check_summaries|discriminate Hv]|]).
  destruct H.
Qed.

(** The loop of a run, on the futures in the order [as_completed] yields
    them. *)
Lemma loop_fresh :
  exists r team',
    for_each (store (submitted remote (fresh_roster region name)))
             (as_completed (scheduled remote (fresh_roster region name)))
             (fresh_roster region name) = (r, team') /\
    ((exists x, r = Raise x) /\
     (exists f e, In f (scheduled remote (fresh_roster region name)) /\
                  fut_outcome f = Raise e)
     \/
     r = Return tt /\
     (forall f, In f (scheduled remote (fresh_roster region name)) ->
        exists v, fut_outcome f = Return v) /\
     (forall sp, In sp pool_fields -> exists v, field sp team' = Some v /\ check v = true)).
Proof.
  set (team := fresh_roster region name).
  set (fs := submitted remote team).
  set (keys := scheduled remote team).
  pose proof (as_completed_permutes keys) as Hperm.
  assert (Htargets : Permutation (map (target fs) (as_completed keys)) (map Some pool_fields)).
  { rewrite <- targets_scheduled. apply Permutation_map. exact Hperm. }
  destruct (for_each_store fs (as_completed keys) team) as (r & team' & Hrun & Hcases).
  - apply (Permutation_NoDup (Permutation_sym Htargets)).
    apply Finite.Injective_map_NoDup; [intros x y Hxy; congruence|apply pool_fields_NoDup].
  - intros f Hf.
    assert (Hin : In (target fs f) (map Some pool_fields)).
    { apply (Permutation_in _ Htargets). apply in_map. exact Hf. }
    apply in_map_iff in Hin as ([s p] & Hsp & Hin).
    exists s, p. destruct (pool_fields_absent s p Hin) as [Hp Hnone]. auto.
  - intros f v Hf. apply scheduled_checked. apply (Permutation_in _ Hperm). exact Hf.
  - exists r, team'. split; [exact Hrun|].
    destruct Hcases as [[Hr (f & e & Hf & He)] | (Hr & Hset & _)].
    + left. split; [exact Hr|]. exists f, e. split; [|exact He].
      apply (Permutation_in _ Hperm). exact Hf.
    + right. split; [exact Hr|]. split.
      * intros f Hf.
        destruct (Hset f) as (v & _ & Hv & _); [|eauto].
        apply (Permutation_in _ (Permutation_sym Hperm)). exact Hf.
      * intros sp Hsp.
        assert (Hin : In (Some sp) (map (target fs) (as_completed keys))).
        { apply (Permutation_in _ (Permutation_sym Htargets)). apply in_map. exact Hsp. }
        apply in_map_iff in Hin as (f & Hf & Hin).
        destruct (Hset f Hin) as (v & sp' & _ & Hc & Ht & Hfield).
        exists v. split; [|exact Hc]. congruence.
Qed.

(** C1. On a fresh roster, whatever the order in which the futures
    settle, when at least one of the ten tasks raised, [inform] raises
    instead of returning [False]: the [None] that [_fetch] returns for
    the failed task is rejected by the guard of [__setattr__]. *)
Theorem inform_raises_when_a_fetch_fails :
  (exists f e, In f (scheduled remote (fresh_roster region name)) /\
               Future_result f = Raise e) ->
  exists e team',
    inform remote as_completed (fresh_roster region name) = (Raise e, team').
Proof.
  intros (f & e & Hf & He). rewrite inform_fresh.
  destruct loop_fresh as (r & team' & -> & [[[x ->] _] | (-> & Hall & _)]).
  - exists x, team'. reflexivity.
  - destruct (Hall f Hf) as [v Hv]. unfold Future_result in He. congruence.
Qed.

(** When every task returned, [inform] returns [True] and each of the ten
    pool fields holds a value that passed the guard. *)
Lemma inform_returns_True_when_all_fetches_return :
  (forall f, In f (scheduled remote (fresh_roster region name)) ->
     exists v, Future_result f = Return v) ->
  exists team',
    inform remote as_completed (fresh_roster region name) = (Return true, team') /\
    forall sp, In sp pool_fields -> exists v, field sp team' = Some v /\ check v = true.
Proof.
  intros Hall. rewrite inform_fresh.
  destruct loop_fresh as (r & team' & -> & [[_ (f & e & Hf & He)] | (-> & _ & Hset)]).
  - destruct (Hall f Hf) as [v Hv]. unfold Future_result in Hv. congruence.
  - exists team'. split; [|exact Hset].
    rewrite (all_bool_complete team' Hset). reflexivity.
Qed.

(** [inform] never returns [False] on a fresh roster: it returns [True]
    with every pool field populated, or it raises. *)
Lemma inform_returns_only_True : forall b team',
  inform remote as_completed (fresh_roster region name) = (Return b, team') ->
  b = true /\
  forall sp, In sp pool_fields -> exists v, field sp team' = Some v /\ check v = true.
Proof.
  intros b team0 H. rewrite inform_fresh in H.
  destruct loop_fresh as (r & team' & Hrun & [[[x ->] _] | (-> & _ & Hset)]);
    rewrite Hrun in H.
  - discriminate H.
  - rewrite (all_bool_complete team' Hset) in H. injection H as <- <-. auto.
Qed.

End Run.

Lemma inform_raises_when_a_fetch_fails_witness :
  In (submit mid_matchup_fails 7
        {| call_fn := get_matchup_pool; call_summoner := PyStr "thef1tnessgram";
           call_region := PyStr "NA"; call_role := "MID" |})
     (scheduled mid_matchup_fails ally) /\
  exists e team', inform mid_matchup_fails in_submission_order ally = (Raise e, team').
Proof.
  split; [cbn; tauto|].
  apply (inform_raises_when_a_fetch_fails mid_matchup_fails in_submission_order
           (fun l => Permutation_refl l) (fun _ => PyStr "NA") ally_names).
  exists (submit mid_matchup_fails 7
            {| call_fn := get_matchup_pool; call_summoner := PyStr "thef1tnessgram";
               call_region := PyStr "NA"; call_role := "MID" |}),
         (OtherException "ConnectionError").
  split; [cbn; tauto|reflexivity].
Defined.

(** The run of the example when the futures settle in submission order: the
    exception is the [TypeError] of the guard, the seven fields assigned
    before the failed task hold their results, and the two that come after
    it are absent although their tasks returned. *)
Example inform_mid_matchup_fails :
  fst (inform mid_matchup_fails in_submission_order ally)
  = Raise (TypeError_not_summaries PyNone) /\
  map (fun sp => field sp (snd (inform mid_matchup_fails in_submission_order ally)))
      pool_fields
  = [Some (PyList [PySummary thresh]); Some (PyList [PySummary thresh]);
     Some (PyList [PySummary thresh]); Some (PyList [PySummary thresh]);
     Some (PyList [PySummary thresh]); Some (PyList [PySummary thresh]);
     Some (PyList [PySummary thresh]); None; None; None].
Proof. split; reflexivity. Qed.

(** The same run when the futures settle in the reverse order: only the two
    fields assigned before the failed task are populated. *)
Example inform_mid_matchup_fails_reversed :
  fst (inform mid_matchup_fails in_reverse_order ally)
  = Raise (TypeError_not_summaries PyNone) /\
  map (fun sp => field sp (snd (inform mid_matchup_fails in_reverse_order ally)))
      pool_fields
  = [None; None; None; None; None; None; None; None;
     Some (PyList [PySummary thresh]); Some (PyList [PySummary thresh])].
Proof. split; reflexivity. Qed.

(** The run of [main.py] when every call returns. *)
Example inform_all_fetched :
  fst (inform (fun _ _ => Return [thresh; thresh; thresh]) in_reverse_order ally)
  = Return true.
Proof. reflexivity. Qed.

(** ** The roster's traversal *)

(** C10. For every region and five names, [Composition(region, ...)]
    returns a roster of exactly five entities; [__iter__] yields them in
    the order top, jungle, mid, adc, support; every entity's region is the
    one region argument and its name the corresponding name argument, and
    a traversal after any run of [inform] finds the same five identities
    in the same order. *)
Theorem roster_traversal_is_fixed :
  forall region top jungle mid adc support : pyvalue,
  exists team,
    Composition.__init__ region top jungle mid adc support = Return team /\
    Composition.__iter__ team
    = [SummonerInformation.mk (Some region) (Some top) None None;
       SummonerInformation.mk (Some region) (Some jungle) None None;
       SummonerInformation.mk (Some region) (Some mid) None None;
       SummonerInformation.mk (Some region) (Some adc) None None;
       SummonerInformation.mk (Some region) (Some support) None None] /\
    forall remote as_completed,
      map identity (Composition.__iter__ (snd (inform remote as_completed team)))
      = [(Some region, Some top); (Some region, Some jungle); (Some region, Some mid);
         (Some region, Some adc); (Some region, Some support)].
Proof.
  intros region top jungle mid adc support.
  pose (names := fun s => match s with
                          | Composition.Top => top
                          | Composition.Jungle => jungle
                          | Composition.Mid => mid
                          | Composition.Adc => adc
                          | Composition.Support => support
                          end).
  exists (fresh_roster (fun _ => region) names).
  split; [reflexivity|]. split; [reflexivity|].
  intros remote as_completed. rewrite inform_fresh.
  set (team := fresh_roster (fun _ => region) names).
  assert (K : forall team' s q x,
             (exists r, for_each (store (submitted remote team))
                                 (as_completed (scheduled remote team)) team = (r, team')) ->
             read q (Composition.read s team) = Some x ->
             read q (Composition.read s team') = Some x).
  { intros team' s q x [r Hr] Hx. eapply for_each_store_keeps; eauto. }
  destruct (for_each (store (submitted remote team))
                     (as_completed (scheduled remote team)) team) as [r team'] eqn:E.
  assert (Hsnd : snd (match r with
                      | Return _ => (all_bool (Composition.__iter__ team'), team')
                      | Raise e => (Raise e, team')
                      end) = team') by (destruct r; reflexivity).
  rewrite Hsnd.
  assert (Hid : forall s, identity (Composition.read s team') = (Some region, Some (names s))).
  { intros s. unfold identity.
    assert (Hr : read Region (Composition.read s team') = Some region)
      by (apply (K team' s Region region (ex_intro _ r eq_refl)); destruct s; reflexivity).
    assert (Hn : read Name (Composition.read s team') = Some (names s))
      by (apply (K team' s Name (names s) (ex_intro _ r eq_refl)); destruct s; reflexivity).
    cbn [read] in Hr, Hn. rewrite Hr, Hn. reflexivity. }
  pose proof (Hid Composition.Top) as H1. pose proof (Hid Composition.Jungle) as H2.
  pose proof (Hid Composition.Mid) as H3. pose proof (Hid Composition.Adc) as H4.
  pose proof (Hid Composition.Support) as H5.
  cbn [Composition.read names] in H1, H2, H3, H4, H5.
  unfold Composition.__iter__. cbn [map].
  rewrite H1, H2, H3, H4, H5. reflexivity.
Qed.

(** * Further properties of the code *)

(** ** Entities after any history of assignments *)

Lemma setattr_guarded : forall attr v e r e',
  __setattr__ attr v e = (r, e') -> guarded e -> guarded e'.
Proof.
  intros attr v e r e' H G.
  apply setattr_cases in H as [[-> _]|(s' & _ & Hnone & -> & _ & Hc)]; [exact G|].
  intros s w Hs Hr.
  destruct s, s'; cbn in Hr; try (apply (G _ w Hs); exact Hr);
    try (destruct Hs; discriminate);
    injection Hr as <-; apply Hc; auto.
Qed.

Lemma assignments_guarded : forall ops e, guarded e -> guarded (assignments ops e).
Proof.
  induction ops as [|[attr v] ops IH]; intros e G; [exact G|].
  cbn. apply IH.
  destruct (__setattr__ attr v e) as [r e'] eqn:H. cbn.
  eapply setattr_guarded; eauto.
Qed.

Lemma new_guarded : forall region name e0, new region name = Return e0 -> guarded e0.
Proof.
  intros region name e0 H. injection H as <-.
  intros s v [-> | ->]; discriminate.
Qed.

Lemma check_elements : forall v,
  check v = true ->
  exists items, iter v = Some items /\
                Forall (fun x => isinstance_ChampionSummary x = true) items.
Proof.
  intros v H. unfold check in H. destruct (iter v) as [items|]; [|discriminate].
  exists items. split; [reflexivity|].
  apply Forall_forall. apply forallb_forall. exact H.
Qed.

(** X1. Whatever assignments were attempted on an entity since its
    construction, a pool slot that holds a value holds an iterable whose
    elements are all [ChampionSummary] objects; in particular it never
    holds [None]. *)
Theorem pool_holds_only_summaries :
  forall (region name : pyvalue) (e0 : SummonerInformation.t)
         (ops : list (string * pyvalue)) (s : slot) (v : pyvalue),
    new region name = Return e0 ->
    s = ChampionPool \/ s = MatchupPool ->
    read s (assignments ops e0) = Some v ->
    is_None v = false /\
    exists items, iter v = Some items /\
                  Forall (fun x => isinstance_ChampionSummary x = true) items.
Proof.
  intros region name e0 ops s v Hnew Hs Hr.
  assert (Hc : check v = true).
  { eapply (assignments_guarded ops e0); eauto. eapply new_guarded; eauto. }
  split; [apply check_not_None; exact Hc | apply check_elements; exact Hc].
Qed.

Lemma pool_holds_only_summaries_witness :
  is_None (PyList [PySummary thresh]) = false /\
  exists items, iter (PyList [PySummary thresh]) = Some items /\
                Forall (fun x => isinstance_ChampionSummary x = true) items.
Proof.
  apply (pool_holds_only_summaries (PyStr "NA") (PyStr "Fizsie")
           (SummonerInformation.mk (Some (PyStr "NA")) (Some (PyStr "Fizsie")) None None)
           [("champion_pool", PyNone);
            ("champion_pool", PyList [PyStr "not-a-summary"]);
            ("champion_pool", PyList [PySummary thresh]);
            ("champion_pool", PyList [])]
           ChampionPool (PyList [PySummary thresh])).
  - reflexivity.
  - left; reflexivity.
  - reflexivity.
Defined.

(** X2. On an entity reached from the constructor by any assignments,
    [bool(entity)] returns [True] when both pools are set and raises
    [AttributeError] for the first pool that is absent; it never returns
    [False], and it leaves the entity as it was. *)
Theorem bool_is_True_or_AttributeError :
  forall (region name : pyvalue) (e0 : SummonerInformation.t)
         (ops : list (string * pyvalue)),
    new region name = Return e0 ->
    (hasattr (assignments ops e0) "champion_pool" = true /\
     hasattr (assignments ops e0) "matchup_pool" = true /\
     __bool__ (assignments ops e0) = (Return true, assignments ops e0))
    \/
    (exists attr,
       (attr = "champion_pool" \/ attr = "matchup_pool") /\
       hasattr (assignments ops e0) attr = false /\
       __bool__ (assignments ops e0) = (Raise (AttributeError attr), assignments ops e0)).
Proof.
  intros region name e0 ops Hnew.
  assert (G : guarded (assignments ops e0)).
  { apply assignments_guarded. eapply new_guarded; eauto. }
  set (e := assignments ops e0) in *.
  destruct (champion_pool e) as [p|] eqn:Hp.
  - destruct (matchup_pool e) as [m|] eqn:Hm.
    + left. unfold hasattr; cbn. rewrite Hp, Hm. repeat split.
      apply (bool_true_when_both_set e p m Hp Hm).
      * apply (G ChampionPool p (or_introl eq_refl) Hp).
      * apply (G MatchupPool m (or_intror eq_refl) Hm).
    + right. exists "matchup_pool". split; [auto|]. split.
      * unfold hasattr; cbn. rewrite Hm. reflexivity.
      * unfold __bool__, bind, getattr; cbn. rewrite Hp.
        rewrite (check_not_None p (G ChampionPool p (or_introl eq_refl) Hp)).
        rewrite Hm. reflexivity.
  - right. exists "champion_pool". split; [auto|]. split.
    + unfold hasattr; cbn. rewrite Hp. reflexivity.
    + unfold __bool__, bind, getattr; cbn. rewrite Hp. reflexivity.
Qed.

Lemma bool_is_True_or_AttributeError_witness :
  __bool__ (assignments [("champion_pool", PyList [PySummary thresh])]
              (SummonerInformation.mk (Some (PyStr "NA")) (Some (PyStr "Fizsie")) None None))
  = (Raise (AttributeError "matchup_pool"),
     SummonerInformation.mk (Some (PyStr "NA")) (Some (PyStr "Fizsie"))
                            (Some (PyList [PySummary thresh])) None).
Proof.
  destruct (bool_is_True_or_AttributeError (PyStr "NA") (PyStr "Fizsie")
              (SummonerInformation.mk (Some (PyStr "NA")) (Some (PyStr "Fizsie")) None None)
              [("champion_pool", PyList [PySummary thresh])] eq_refl)
    as [(_ & H & _) | (attr & _ & _ & _)].
  - discriminate H.
  - reflexivity.
Defined.

(** X3. What one assignment can do to an entity.  When it returns, the
    attribute is one of the four slots, the slot was absent before and
    holds the assigned value after; when it raises, the object is as it
    was; and in every case each slot that held a value still holds it:
    an assignment never overwrites a slot and never creates an attribute
    outside [__slots__]. *)
Theorem setattr_only_fills_an_absent_slot :
  forall (attr : string) (value : pyvalue) (e e' : SummonerInformation.t) (r : result unit),
    __setattr__ attr value e = (r, e') ->
    (r = Return tt ->
       In attr SummonerInformation.__slots__ /\
       hasattr e attr = false /\
       exists s, attr = slot_name s /\ read s e' = Some value) /\
    ((exists x, r = Raise x) -> e' = e) /\
    (forall s x, read s e = Some x -> read s e' = Some x).
Proof.
  intros attr value e e' r H. split; [|split].
  - intros ->.
    apply setattr_cases in H as [[_ [x Hx]]|(s & -> & Hnone & -> & _ & _)]; [discriminate|].
    split; [destruct s; cbn; tauto|]. split.
    + unfold hasattr. rewrite slot_of_slot_name, Hnone. reflexivity.
    + exists s. split; [reflexivity|apply read_write_same].
  - intros [x ->].
    apply setattr_cases in H as [[-> _]|(s & _ & _ & _ & Hr & _)]; [reflexivity|discriminate].
  - intros s x Hx. eapply setattr_keeps; eauto.
Qed.

Lemma setattr_only_fills_an_absent_slot_witness :
  (Return tt = Return tt ->
     In "matchup_pool" SummonerInformation.__slots__ /\
     hasattr (SummonerInformation.mk (Some (PyStr "NA")) (Some (PyStr "Fizsie")) None None)
             "matchup_pool" = false /\
     exists s, "matchup_pool" = slot_name s /\
               read s (SummonerInformation.mk (Some (PyStr "NA")) (Some (PyStr "Fizsie"))
                                              None (Some (PyTuple [])))
               = Some (PyTuple [])) /\
  ((exists x, Return tt = Raise x) ->
     SummonerInformation.mk (Some (PyStr "NA")) (Some (PyStr "Fizsie")) None (Some (PyTuple []))
     = SummonerInformation.mk (Some (PyStr "NA")) (Some (PyStr "Fizsie")) None None) /\
  (forall s x,
     read s (SummonerInformation.mk (Some (PyStr "NA")) (Some (PyStr "Fizsie")) None None)
     = Some x ->
     read s (SummonerInformation.mk (Some (PyStr "NA")) (Some (PyStr "Fizsie")) None
                                    (Some (PyTuple [])))
     = Some x).
Proof.
  apply (setattr_only_fills_an_absent_slot "matchup_pool" (PyTuple [])
           (SummonerInformation.mk (Some (PyStr "NA")) (Some (PyStr "Fizsie")) None None)).
  reflexivity.
Defined.

(** ** The champion table: missing keys, duplicates, caching *)

(** A lookup on a scraper whose first access to [df] answers [table]: the
    table is cached by the lookup. *)
Lemma to_id_loading : forall response self table self' name,
  df response self = (Return table, self') ->
  to_id response name self
  = first (map row_id (filter (fun r => row_name r =? name) table)) self'.
Proof.
  intros response self table self' name H. unfold to_id, bind.
  rewrite H, (df_cached response response self table self' H), loc_filter. reflexivity.
Qed.

Lemma from_id_loading : forall response self table self' riot_id,
  df response self = (Return table, self') ->
  from_id response riot_id self
  = first (map row_name (filter (fun r => Z.eqb (row_id r) riot_id) table)) self'.
Proof.
  intros response self table self' riot_id H. unfold from_id, bind.
  rewrite H, (df_cached response response self table self' H), loc_filter. reflexivity.
Qed.

Lemma filter_none : forall (p : champion_row -> bool) (table : DataFrame),
  (forall r, In r table -> p r = false) -> filter p table = [].
Proof.
  intros p table. induction table as [|r table IH]; intros H; [reflexivity|].
  cbn. rewrite (H r (or_introl eq_refl)). apply IH. intros r' Hr'. apply H. right; exact Hr'.
Qed.

(** X4. A name that is not in the champion table makes [to_id] raise
    [IndexError], and an identifier that is not in it makes [from_id] raise
    [IndexError]; the table stays cached.  This covers the empty table. *)
Theorem lookup_of_missing_key_raises_IndexError :
  forall (first_response later : result DataFrame) (self0 self : GGScraper.t)
         (table : DataFrame),
    df first_response self0 = (Return table, self) ->
    (forall name, ~ In name (map row_name table) ->
       to_id later name self = (Raise IndexError, self)) /\
    (forall riot_id, ~ In riot_id (map row_id table) ->
       from_id later riot_id self = (Raise IndexError, self)).
Proof.
  intros first_response later self0 self table Hdf.
  assert (H1 : df later self = (Return table, self)) by (eapply df_cached; eauto).
  split.
  - intros name Hn. rewrite (to_id_loaded later self table name H1).
    rewrite filter_none; [reflexivity|].
    intros r Hr. apply String.eqb_neq. intros Heq. apply Hn.
    rewrite <- Heq. apply in_map. exact Hr.
  - intros riot_id Hn. rewrite (from_id_loaded later self table riot_id H1).
    rewrite filter_none; [reflexivity|].
    intros r Hr. apply Z.eqb_neq. intros Heq. apply Hn.
    rewrite <- Heq. apply in_map. exact Hr.
Qed.

Lemma lookup_of_missing_key_raises_IndexError_witness :
  to_id (Return example_table) "Teemo" (GGScraper.mk "sha-c" "sha-m" 200 5 (Some []))
  = (Raise IndexError, GGScraper.mk "sha-c" "sha-m" 200 5 (Some [])).
Proof.
  refine (proj1 (lookup_of_missing_key_raises_IndexError (Return []) (Return example_table)
                   example_scraper (GGScraper.mk "sha-c" "sha-m" 200 5 (Some [])) []
                   eq_refl) "Teemo" _).
  intros H. exact H.
Defined.

(** X5. Each round trip needs only one of the two uniqueness conditions:
    with unique identifiers (names may repeat), [from_id(to_id(name))]
    returns [name] for every name of the table; with unique names
    (identifiers may repeat), [to_id(from_id(id))] returns [id] for every
    identifier of the table. *)
Theorem round_trip_needs_one_uniqueness :
  forall (first_response later later' : result DataFrame) (self0 self : GGScraper.t)
         (table : DataFrame),
    df first_response self0 = (Return table, self) ->
    (NoDup (map row_id table) ->
     forall name, In name (map row_name table) ->
       exists riot_id, to_id later name self = (Return riot_id, self) /\
                       from_id later' riot_id self = (Return name, self)) /\
    (NoDup (map row_name table) ->
     forall riot_id, In riot_id (map row_id table) ->
       exists name, from_id later riot_id self = (Return name, self) /\
                    to_id later' name self = (Return riot_id, self)).
Proof.
  intros first_response later later' self0 self table Hdf.
  assert (H1 : df later self = (Return table, self)) by (eapply df_cached; eauto).
  assert (H2 : df later' self = (Return table, self)) by (eapply df_cached; eauto).
  split.
  - intros Hids name Hin. apply in_map_iff in Hin as (r & Hr & Hin).
    destruct (filter_first (fun r => row_name r =? name) table r Hin)
      as (r0 & rest & E & Hin0 & Hp0).
    { rewrite Hr. apply String.eqb_refl. }
    apply String.eqb_eq in Hp0.
    exists (row_id r0). split.
    + rewrite (to_id_loaded later self table name H1), E. reflexivity.
    + rewrite (from_id_loaded later' self table (row_id r0) H2).
      destruct (filter_first (fun r => Z.eqb (row_id r) (row_id r0)) table r0 Hin0)
        as (r1 & rest1 & E1 & Hin1 & Hp1); [apply Z.eqb_refl|].
      apply Z.eqb_eq in Hp1.
      rewrite E1. cbn. unfold ret.
      rewrite (NoDup_map_eq row_id table r1 r0 Hids Hin1 Hin0 Hp1), Hp0. reflexivity.
  - intros Hnames riot_id Hin. apply in_map_iff in Hin as (r & Hr & Hin).
    destruct (filter_first (fun r => Z.eqb (row_id r) riot_id) table r Hin)
      as (r0 & rest & E & Hin0 & Hp0).
    { rewrite Hr. apply Z.eqb_refl. }
    apply Z.eqb_eq in Hp0.
    exists (row_name r0). split.
    + rewrite (from_id_loaded later self table riot_id H1), E. reflexivity.
    + rewrite (to_id_loaded later' self table (row_name r0) H2).
      destruct (filter_first (fun r => row_name r =? row_name r0) table r0 Hin0)
        as (r1 & rest1 & E1 & Hin1 & Hp1); [apply String.eqb_refl|].
      apply String.eqb_eq in Hp1.
      rewrite E1. cbn. unfold ret.
      rewrite (NoDup_map_eq row_name table r1 r0 Hnames Hin1 Hin0 Hp1), Hp0. reflexivity.
Qed.

Lemma round_trip_needs_one_uniqueness_witness :
  exists riot_id,
    to_id (Raise (OtherException "ConnectionError")) "Thresh"
      (GGScraper.mk "sha-c" "sha-m" 200 5 (Some twin_table))
    = (Return riot_id, GGScraper.mk "sha-c" "sha-m" 200 5 (Some twin_table)) /\
    from_id (Return []) riot_id (GGScraper.mk "sha-c" "sha-m" 200 5 (Some twin_table))
    = (Return "Thresh", GGScraper.mk "sha-c" "sha-m" 200 5 (Some twin_table)).
Proof.
  refine (proj1 (round_trip_needs_one_uniqueness (Return twin_table)
                   (Raise (OtherException "ConnectionError")) (Return [])
                   example_scraper (GGScraper.mk "sha-c" "sha-m" 200 5 (Some twin_table))
                   twin_table eq_refl) _ "Thresh" _).
  - repeat constructor; cbn; intuition discriminate.
  - cbn. auto.
Defined.

(** With a repeated name the other round trip fails: [from_id(999)] is
    ["Thresh"], and [to_id("Thresh")] is the identifier of the first row. *)
Example to_id_takes_the_first_row :
  from_id (Return twin_table) 999 example_scraper
  = (Return "Thresh", GGScraper.mk "sha-c" "sha-m" 200 5 (Some twin_table)) /\
  to_id (Return twin_table) "Thresh" (GGScraper.mk "sha-c" "sha-m" 200 5 (Some twin_table))
  = (Return 412%Z, GGScraper.mk "sha-c" "sha-m" 200 5 (Some twin_table)).
Proof. split; reflexivity. Qed.

(** The configuration of a scraper is not touched by [df]. *)
Lemma df_keeps_config : forall response self r self',
  df response self = (r, self') ->
  SHA_C self' = SHA_C self /\ SHA_M self' = SHA_M self /\
  max_games self' = max_games self /\ max_workers self' = max_workers self.
Proof.
  intros response self r self' H. unfold df in H.
  destruct (_df self); [injection H as <- <-; auto|].
  destruct response; injection H as <- <-; auto.
Qed.

(** X6. For accesses made one after another on a scraper that no other
    thread is using (not for the concurrent accesses of the worker threads
    of [inform], which are not modelled): a failure is not cached and a
    table is loaded once.  While no table is cached, a failed champion
    query makes [df] and the lookups raise its exception and leaves the
    scraper as it was, so the next access asks again; once an access has
    returned a table, every later access and lookup in the sequence reads
    that table and leaves the scraper as it is, whatever the service would
    answer then. *)
Theorem table_is_cached_failure_is_not :
  forall (self0 : GGScraper.t),
    (_df self0 = None ->
     forall e name riot_id,
       df (Raise e) self0 = (Raise e, self0) /\
       to_id (Raise e) name self0 = (Raise e, self0) /\
       from_id (Raise e) riot_id self0 = (Raise e, self0)) /\
    (forall first_response table self,
       df first_response self0 = (Return table, self) ->
       forall later later' name riot_id,
         df later self = (Return table, self) /\
         to_id later name self = to_id later' name self /\
         snd (to_id later name self) = self /\
         from_id later riot_id self = from_id later' riot_id self /\
         snd (from_id later riot_id self) = self).
Proof.
  intros self0. split.
  - intros Hnone e name riot_id.
    assert (H : df (Raise e) self0 = (Raise e, self0)).
    { unfold df. rewrite Hnone. reflexivity. }
    split; [exact H|]. unfold to_id, from_id, bind. rewrite H. auto.
  - intros first_response table self Hdf later later' name riot_id.
    assert (H1 : df later self = (Return table, self)) by (eapply df_cached; eauto).
    assert (H2 : df later' self = (Return table, self)) by (eapply df_cached; eauto).
    split; [exact H1|].
    rewrite (to_id_loaded later self table name H1), (to_id_loaded later' self table name H2).
    rewrite (from_id_loaded later self table riot_id H1),
            (from_id_loaded later' self table riot_id H2).
    repeat split.
    + destruct (map row_id _); reflexivity.
    + destruct (map row_name _); reflexivity.
Qed.

Lemma table_is_cached_failure_is_not_witness :
  to_id (Raise (OtherException "ConnectionError")) "Ahri" example_scraper
  = (Raise (OtherException "ConnectionError"), example_scraper) /\
  to_id (Raise (OtherException "ConnectionError")) "Ahri"
    (GGScraper.mk "sha-c" "sha-m" 200 5 (Some example_table))
  = to_id (Return []) "Ahri" (GGScraper.mk "sha-c" "sha-m" 200 5 (Some example_table)).
Proof.
  split.
  - exact (proj1 (proj2 (proj1 (table_is_cached_failure_is_not example_scraper) eq_refl
                          (OtherException "ConnectionError") "Ahri" 0%Z))).
  - exact (proj1 (proj2 (proj2 (table_is_cached_failure_is_not example_scraper)
                          (Return example_table) example_table
                          (GGScraper.mk "sha-c" "sha-m" 200 5 (Some example_table)) eq_refl
                          (Raise (OtherException "ConnectionError")) (Return [])
                          "Ahri" 0%Z))).
Defined.

(** ** The pool queries *)

Lemma find_name_None : forall table riot_id,
  find_name table riot_id = None <-> ~ In riot_id (map row_id table).
Proof.
  intros table riot_id. unfold find_name.
  destruct (filter (fun r => Z.eqb (row_id r) riot_id) table) as [|r0 rest] eqn:E.
  - split; [|reflexivity]. intros _ Hin.
    apply in_map_iff in Hin as (r & Hr & Hin).
    assert (H : In r (filter (fun r => Z.eqb (row_id r) riot_id) table)).
    { apply filter_In. split; [exact Hin|]. apply Z.eqb_eq. exact Hr. }
    rewrite E in H. destruct H.
  - split; [discriminate|]. intros Hn. exfalso. apply Hn.
    assert (H : In r0 (filter (fun r => Z.eqb (row_id r) riot_id) table))
      by (rewrite E; left; reflexivity).
    apply filter_In in H as [Hin Heq]. apply Z.eqb_eq in Heq.
    rewrite <- Heq. apply in_map. exact Hin.
Qed.

Lemma find_id_None : forall table name,
  find_id table name = None <-> ~ In name (map row_name table).
Proof.
  intros table name. unfold find_id.
  destruct (filter (fun r => row_name r =? name) table) as [|r0 rest] eqn:E.
  - split; [|reflexivity]. intros _ Hin.
    apply in_map_iff in Hin as (r & Hr & Hin).
    assert (H : In r (filter (fun r => row_name r =? name) table)).
    { apply filter_In. split; [exact Hin|]. apply String.eqb_eq. exact Hr. }
    rewrite E in H. destruct H.
  - split; [discriminate|]. intros Hn. exfalso. apply Hn.
    assert (H : In r0 (filter (fun r => row_name r =? name) table))
      by (rewrite E; left; reflexivity).
    apply filter_In in H as [Hin Heq]. apply String.eqb_eq in Heq.
    rewrite <- Heq. apply in_map. exact Hin.
Qed.

Lemma pool_query_config : forall self self' operation summoner region riot_id queue role,
  SHA_C self' = SHA_C self -> SHA_M self' = SHA_M self -> max_games self' = max_games self ->
  pool_query self' operation summoner region riot_id queue role
  = pool_query self operation summoner region riot_id queue role.
Proof.
  intros self self' operation summoner region riot_id queue role H1 H2 H3.
  unfold pool_query. rewrite H1, H2, H3. reflexivity.
Qed.

Section PoolQueries.

Variable champions : result DataFrame.
Variable post : Query -> result (list Item).

Lemma on_self_from_id : forall self table self' riot_id log,
  df champions self = (Return table, self') ->
  Pools.on_self (from_id champions riot_id) (self, log)
  = (match find_name table riot_id with
     | Some n => Return n
     | None => Raise IndexError
     end, (self', log)).
Proof.
  intros self table self' riot_id log H. unfold Pools.on_self. cbn [fst snd].
  rewrite (from_id_loading champions self table self' riot_id H). unfold find_name.
  destruct (filter (fun r => Z.eqb (row_id r) riot_id) table); reflexivity.
Qed.

Lemma on_self_to_id : forall self table self' name log,
  df champions self = (Return table, self') ->
  Pools.on_self (to_id champions name) (self, log)
  = (match find_id table name with
     | Some i => Return i
     | None => Raise IndexError
     end, (self', log)).
Proof.
  intros self table self' name log H. unfold Pools.on_self. cbn [fst snd].
  rewrite (to_id_loading champions self table self' name H). unfold find_id.
  destruct (filter (fun r => row_name r =? name) table); reflexivity.
Qed.

(** The loop over the answer once the table is cached. *)
Lemma append_all_cached : forall table self items stats log,
  df champions self = (Return table, self) ->
  (forall item, In item items -> In (item_championId item) (map row_id table)) ->
  exists out,
    Pools.append_all champions items stats (self, log)
    = (Return (stats ++ out)%list, (self, log)) /\
    Forall2 (becomes table) items out.
Proof.
  intros table self items. induction items as [|item items IH]; intros stats log Hdf Hall.
  - exists []. rewrite app_nil_r. split; [reflexivity|constructor].
  - cbn [Pools.append_all]. unfold bind at 1.
    rewrite (on_self_from_id self table self (item_championId item) log Hdf).
    destruct (find_name table (item_championId item)) as [champion|] eqn:E.
    + destruct (IH (stats ++ [summary_of champion item])%list log Hdf) as (out & Hrun & Hout).
      { intros it Hit. apply Hall. right; exact Hit. }
      exists (summary_of champion item :: out). split.
      * unfold summary_of in Hrun |- *. rewrite Hrun, <- app_assoc. reflexivity.
      * constructor; [exists champion; auto|exact Hout].
    + apply find_name_None in E. exfalso. apply E. apply Hall. left; reflexivity.
Qed.

Lemma append_all_missing : forall table self items stats log,
  df champions self = (Return table, self) ->
  Exists (fun item => ~ In (item_championId item) (map row_id table)) items ->
  Pools.append_all champions items stats (self, log) = (Raise IndexError, (self, log)).
Proof.
  intros table self items. induction items as [|item items IH]; intros stats log Hdf Hex.
  - inversion Hex.
  - cbn [Pools.append_all]. unfold bind at 1.
    rewrite (on_self_from_id self table self (item_championId item) log Hdf).
    destruct (find_name table (item_championId item)) as [champion|] eqn:E; [|reflexivity].
    apply IH; [exact Hdf|].
    inversion Hex as [? ? Hhead|? ? Htail]; subst; [|exact Htail].
    apply find_name_None in Hhead. congruence.
Qed.

(** The same loop when the first lookup may have to load the table. *)
Lemma append_all_loading : forall table self self' items stats log,
  df champions self = (Return table, self') ->
  (forall item, In item items -> In (item_championId item) (map row_id table)) ->
  exists out sf,
    Pools.append_all champions items stats (self, log)
    = (Return (stats ++ out)%list, (sf, log)) /\
    (sf = self \/ sf = self') /\
    Forall2 (becomes table) items out.
Proof.
  intros table self self' items stats log Hdf Hall.
  assert (Hdf' : df champions self' = (Return table, self')) by (eapply df_cached; eauto).
  destruct items as [|item items].
  - exists [], self. rewrite app_nil_r.
    split; [reflexivity|]. split; [left; reflexivity|constructor].
  - cbn [Pools.append_all]. unfold bind at 1.
    rewrite (on_self_from_id self table self' (item_championId item) log Hdf).
    destruct (find_name table (item_championId item)) as [champion|] eqn:E.
    + destruct (append_all_cached table self' items (stats ++ [summary_of champion item])%list
                  log Hdf') as (out & Hrun & Hout).
      { intros it Hit. apply Hall. right; exact Hit. }
      exists (summary_of champion item :: out), self'. split; [|split; [auto|]].
      * unfold summary_of in Hrun |- *. rewrite Hrun, <- app_assoc. reflexivity.
      * constructor; [exists champion; auto|exact Hout].
    + apply find_name_None in E. exfalso. apply E. apply Hall. left; reflexivity.
Qed.

Lemma append_all_loading_missing : forall table self self' items stats log,
  df champions self = (Return table, self') ->
  Exists (fun item => ~ In (item_championId item) (map row_id table)) items ->
  Pools.append_all champions items stats (self, log) = (Raise IndexError, (self', log)).
Proof.
  intros table self self' items stats log Hdf Hex.
  assert (Hdf' : df champions self' = (Return table, self')) by (eapply df_cached; eauto).
  destruct items as [|item items]; [inversion Hex|].
  cbn [Pools.append_all]. unfold bind at 1.
  rewrite (on_self_from_id self table self' (item_championId item) log Hdf).
  destruct (find_name table (item_championId item)) as [champion|] eqn:E; [|reflexivity].
  apply (append_all_missing table self'); [exact Hdf'|].
  inversion Hex as [? ? Hhead|? ? Htail]; subst; [|exact Htail].
  apply find_name_None in Hhead. congruence.
Qed.

(** The loop posts nothing. *)
Lemma append_all_log : forall items stats w,
  snd (snd (Pools.append_all champions items stats w)) = snd w.
Proof.
  induction items as [|item items IH]; intros stats w; [reflexivity|].
  cbn [Pools.append_all]. unfold bind at 1, Pools.on_self.
  destruct (from_id champions (item_championId item) (fst w)) as [[champion|e] self1].
  - rewrite IH. reflexivity.
  - reflexivity.
Qed.

(** A call without a champion filter: the query is posted, and the loop
    runs on its answer. *)
Lemma get_pool_without_filter : forall operation summoner region queue role self log,
  Pools._get_pool champions post operation summoner region None queue role (self, log)
  = match post (pool_query self operation summoner region None queue role) with
    | Return items =>
        Pools.append_all champions items []
          (self, (log ++ [pool_query self operation summoner region None queue role])%list)
    | Raise e =>
        (Raise e,
         (self, (log ++ [pool_query self operation summoner region None queue role])%list))
    end.
Proof.
  intros. unfold Pools._get_pool, bind, ret, Pools.requests_post, Pools.encodes, pool_query.
  cbn [fst snd var_cChampionId].
  destruct (post _); reflexivity.
Qed.

Lemma df_stores : forall response self table self',
  df response self = (Return table, self') -> _df self' = Some table.
Proof.
  intros response self table self' H. unfold df in H.
  destruct (_df self) as [t0|] eqn:E.
  - injection H as <- <-. exact E.
  - destruct response as [t0|e]; [|discriminate]. injection H as <- <-. reflexivity.
Qed.

(** A call with a champion filter, on a scraper whose first access to [df]
    answers [table]. *)
Lemma get_pool_with_filter : forall operation summoner region n queue role
                                    self table self' log,
  df champions self = (Return table, self') ->
  Pools._get_pool champions post operation summoner region (Some n) queue role (self, log)
  = match find_id table n with
    | None => (Raise IndexError, (self', log))
    | Some i =>
        if Pools.id_is_numpy table
        then (Raise (OtherException "TypeError"), (self', log))
        else
          match post (pool_query self operation summoner region (Some i) queue role) with
          | Return items =>
              Pools.append_all champions items []
                (self', (log ++ [pool_query self operation summoner region (Some i)
                                            queue role])%list)
          | Raise e =>
              (Raise e,
               (self', (log ++ [pool_query self operation summoner region (Some i)
                                           queue role])%list))
          end
    end.
Proof.
  intros operation summoner region n queue role self table self' log Hdf.
  destruct (df_keeps_config champions self _ self' Hdf) as (C1 & C2 & C3 & _).
  pose proof (df_stores champions self table self' Hdf) as Hst.
  unfold Pools._get_pool. unfold bind at 1. unfold bind at 1.
  rewrite (on_self_to_id self table self' n log Hdf).
  destruct (find_id table n) as [i|]; [|reflexivity].
  rewrite <- (pool_query_config self self' operation summoner region (Some i)
                queue role C1 C2 C3).
  unfold ret, bind, Pools.requests_post, Pools.encodes, pool_query.
  cbn [fst snd var_cChampionId]. rewrite Hst.
  destruct (Pools.id_is_numpy table); cbn [negb]; [reflexivity|].
  destruct (post _); reflexivity.
Qed.

End PoolQueries.

(** X7. A call without a champion filter (as [inform] makes them): when
    the champion table can be read, the pool query is answered, and every
    item of the answer has a [championId] of the table, [_get_pool] posts
    exactly one query and returns one summary per item, in the order of the
    answer: each summary has the name of the first row with the item's
    [championId] and the item's statistics, [looses] becoming [losses]. *)
Theorem get_pool_returns_one_summary_per_item :
  forall (champions : result DataFrame) (post : Query -> result (list Item))
         (operation : string) (summoner region : pyvalue) (queue role : option string)
         (self self' : GGScraper.t) (table : DataFrame) (log : list Query)
         (items : list Item),
    df champions self = (Return table, self') ->
    post (pool_query self operation summoner region None queue role) = Return items ->
    (forall item, In item items -> In (item_championId item) (map row_id table)) ->
    exists stats sf,
      Pools._get_pool champions post operation summoner region None queue role (self, log)
      = (Return stats,
         (sf, (log ++ [pool_query self operation summoner region None queue role])%list)) /\
      (sf = self \/ sf = self') /\
      Forall2 (becomes table) items stats.
Proof.
  intros champions post operation summoner region queue role self self' table log items
         Hdf Hpost Hall.
  rewrite get_pool_without_filter, Hpost.
  destruct (append_all_loading champions table self self' items []
              (log ++ [pool_query self operation summoner region None queue role])%list
              Hdf Hall) as (out & sf & Hrun & Hsf & Hout).
  exists out, sf. split; [exact Hrun|]. split; [exact Hsf|exact Hout].
Qed.

Lemma get_pool_returns_one_summary_per_item_witness :
  exists stats sf,
    Pools._get_pool (Return example_table) (fun _ => Return [thresh_item; thresh_item])
      "LolProfilePageChampionsPoolQuery" (PyStr "imwangingrn") (PyStr "NA")
      None None (Some "SUPPORT") (example_scraper, [])
    = (Return stats,
       (sf, ([] ++ [pool_query example_scraper "LolProfilePageChampionsPoolQuery"
                      (PyStr "imwangingrn") (PyStr "NA") None None (Some "SUPPORT")])%list)) /\
    (sf = example_scraper \/ sf = GGScraper.mk "sha-c" "sha-m" 200 5 (Some example_table)) /\
    Forall2 (becomes example_table) [thresh_item; thresh_item] stats.
Proof.
  apply (get_pool_returns_one_summary_per_item (Return example_table)
           (fun _ => Return [thresh_item; thresh_item])
           "LolProfilePageChampionsPoolQuery" (PyStr "imwangingrn") (PyStr "NA")
           None (Some "SUPPORT") example_scraper
           (GGScraper.mk "sha-c" "sha-m" 200 5 (Some example_table)) example_table []
           [thresh_item; thresh_item]).
  - reflexivity.
  - reflexivity.
  - intros item [<-|[<-|[]]]; cbn; auto.
Defined.

(** The call of the example, evaluated. *)
Example get_pool_of_the_example :
  Pools.get_champion_pool (Return example_table) (fun _ => Return [thresh_item; thresh_item])
    (PyStr "imwangingrn") (PyStr "NA") None None (Some "SUPPORT") (example_scraper, [])
  = (Return [thresh; thresh],
     (GGScraper.mk "sha-c" "sha-m" 200 5 (Some example_table),
      [pool_query example_scraper "LolProfilePageChampionsPoolQuery"
         (PyStr "imwangingrn") (PyStr "NA") None None (Some "SUPPORT")])).
Proof. reflexivity. Qed.

(** X8. A call without a champion filter: when the answer holds an item
    whose [championId] is not in the champion table, [_get_pool] raises
    [IndexError] after the query was posted: no partial list is
    returned. *)
Theorem get_pool_raises_on_unknown_champion_id :
  forall (champions : result DataFrame) (post : Query -> result (list Item))
         (operation : string) (summoner region : pyvalue) (queue role : option string)
         (self self' : GGScraper.t) (table : DataFrame) (log : list Query)
         (items : list Item),
    df champions self = (Return table, self') ->
    post (pool_query self operation summoner region None queue role) = Return items ->
    Exists (fun item => ~ In (item_championId item) (map row_id table)) items ->
    Pools._get_pool champions post operation summoner region None queue role (self, log)
    = (Raise IndexError,
       (self', (log ++ [pool_query self operation summoner region None queue role])%list)).
Proof.
  intros champions post operation summoner region queue role self self' table log items
         Hdf Hpost Hex.
  rewrite get_pool_without_filter, Hpost.
  apply (append_all_loading_missing champions table self self'); assumption.
Qed.

Lemma get_pool_raises_on_unknown_champion_id_witness :
  Pools._get_pool (Return twin_table) (fun _ => Return [thresh_item; thresh_item])
    "LolProfilePageMatchupsPoolQuery" (PyStr "imwangingrn") (PyStr "NA")
    None None (Some "SUPPORT") (GGScraper.mk "sha-c" "sha-m" 200 5 (Some []), [])
  = (Raise IndexError,
     (GGScraper.mk "sha-c" "sha-m" 200 5 (Some []),
      ([] ++ [pool_query (GGScraper.mk "sha-c" "sha-m" 200 5 (Some []))
                "LolProfilePageMatchupsPoolQuery" (PyStr "imwangingrn") (PyStr "NA")
                None None (Some "SUPPORT")])%list)).
Proof.
  apply (get_pool_raises_on_unknown_champion_id (Return twin_table)
           (fun _ => Return [thresh_item; thresh_item])
           "LolProfilePageMatchupsPoolQuery" (PyStr "imwangingrn") (PyStr "NA")
           None (Some "SUPPORT") (GGScraper.mk "sha-c" "sha-m" 200 5 (Some []))
           (GGScraper.mk "sha-c" "sha-m" 200 5 (Some [])) [] []
           [thresh_item; thresh_item]).
  - reflexivity.
  - reflexivity.
  - left. intros H. exact H.
Defined.

(** X9. When the champion filter is a name that is not in the champion
    table, [_get_pool] raises [IndexError] before anything is posted: the
    log of pool queries is as it was. *)
Theorem get_pool_with_unknown_name_posts_nothing :
  forall (champions : result DataFrame) (post : Query -> result (list Item))
         (operation : string) (summoner region : pyvalue) (n : string)
         (queue role : option string)
         (self self' : GGScraper.t) (table : DataFrame) (log : list Query),
    df champions self = (Return table, self') ->
    ~ In n (map row_name table) ->
    Pools._get_pool champions post operation summoner region (Some n) queue role (self, log)
    = (Raise IndexError, (self', log)).
Proof.
  intros champions post operation summoner region n queue role self self' table log Hdf Hn.
  rewrite (get_pool_with_filter champions post operation summoner region n queue role
             self table self' log Hdf).
  apply find_id_None in Hn. rewrite Hn. reflexivity.
Qed.

Lemma get_pool_with_unknown_name_posts_nothing_witness :
  Pools._get_pool (Return example_table) (fun _ => Return [thresh_item])
    "LolProfilePageChampionsPoolQuery" (PyStr "imwangingrn") (PyStr "NA")
    (Some "Teemo") None (Some "SUPPORT") (example_scraper, [])
  = (Raise IndexError, (GGScraper.mk "sha-c" "sha-m" 200 5 (Some example_table), [])).
Proof.
  apply (get_pool_with_unknown_name_posts_nothing (Return example_table)
           (fun _ => Return [thresh_item])
           "LolProfilePageChampionsPoolQuery" (PyStr "imwangingrn") (PyStr "NA")
           "Teemo" None (Some "SUPPORT") example_scraper
           (GGScraper.mk "sha-c" "sha-m" 200 5 (Some example_table)) example_table []).
  - reflexivity.
  - cbn. intuition discriminate.
Defined.



(** One call posts nothing and raises, or posts exactly one query, built
    from the scraper's configuration and the arguments. *)
Lemma get_pool_log :
  forall (champions : result DataFrame) (post : Query -> result (list Item))
         (operation : string) (summoner region : pyvalue) (name queue role : option string)
         (self : GGScraper.t) (log : list Query),
  exists r sf log',
    Pools._get_pool champions post operation summoner region name queue role (self, log)
    = (r, (sf, log')) /\
    ((log' = log /\ exists e, r = Raise e) \/
     exists riot_id,
       log' = (log ++ [pool_query self operation summoner region riot_id queue role])%list /\
       (name = None -> riot_id = None)).
Proof.
  intros champions post operation summoner region name queue role self log.
  assert (Hloop : forall items sf0 log0,
            exists r sf,
              Pools.append_all champions items [] (sf0, log0) = (r, (sf, log0))).
  { intros items sf0 log0.
    pose proof (append_all_log champions items [] (sf0, log0)) as Hlog.
    destruct (Pools.append_all champions items [] (sf0, log0)) as [r [sf l]].
    cbn in Hlog. subst l. eauto. }
  destruct name as [n|].
  - destruct (df champions self) as [[table|e] self'] eqn:Hdf.
    + rewrite (get_pool_with_filter champions post operation summoner region n queue role
                 self table self' log Hdf).
      destruct (find_id table n) as [i|].
      * destruct (Pools.id_is_numpy table).
        { eexists _, _, _. split; [reflexivity|]. left. eauto. }
        destruct (post (pool_query self operation summoner region (Some i) queue role))
          as [items|e].
        -- destruct (Hloop items self'
                       (log ++ [pool_query self operation summoner region (Some i)
                                  queue role])%list) as (r & sf & ->).
           exists r, sf, (log ++ [pool_query self operation summoner region (Some i)
                                    queue role])%list.
           split; [reflexivity|]. right. exists (Some i). split; [reflexivity|discriminate].
        -- eexists _, _, _. split; [reflexivity|]. right. exists (Some i).
           split; [reflexivity|discriminate].
      * eexists _, _, _. split; [reflexivity|]. left. eauto.
    + exists (Raise e), self', log. split; [|left; eauto].
      unfold Pools._get_pool, bind, Pools.on_self, to_id, bind. cbn [fst snd].
      rewrite Hdf. reflexivity.
  - rewrite get_pool_without_filter.
    destruct (post (pool_query self operation summoner region None queue role)) as [items|e].
    + destruct (Hloop items self
                  (log ++ [pool_query self operation summoner region None queue role])%list)
        as (r & sf & ->).
      exists r, sf, (log ++ [pool_query self operation summoner region None queue role])%list.
      split; [reflexivity|]. right. exists None. auto.
    + eexists _, _, _. split; [reflexivity|]. right. exists None. auto.
Qed.

(** X10. Whatever the services answer, one call of [get_champion_pool] or
    [get_matchup_pool] posts at most one pool query, and posts none only
    when it raises.  The query of [get_champion_pool] carries the hash
    [SHA_C] and the mode [Best], that of [get_matchup_pool] the hash
    [SHA_M] and the mode [Worst]; both carry the scraper's [max_games], the
    summoner, region, queue and role of the call, and no champion
    identifier when no champion filter is given. *)
Theorem pool_functions_post_at_most_one_query :
  forall (champions : result DataFrame) (post : Query -> result (list Item))
         (summoner region : pyvalue) (name queue role : option string)
         (self : GGScraper.t) (log : list Query),
    (exists r sf log',
       Pools.get_champion_pool champions post summoner region name queue role (self, log)
       = (r, (sf, log')) /\
       ((log' = log /\ exists e, r = Raise e) \/
        exists q,
          log' = (log ++ [q])%list /\
          operationName q = "LolProfilePageChampionsPoolQuery" /\
          persistedQuery_sha256Hash q = SHA_C self /\ var_mode q = "Best" /\
          var_top q = max_games self /\ var_summonerName q = summoner /\
          var_region q = region /\ var_cQueue q = queue /\ var_cRolename q = role /\
          (name = None -> var_cChampionId q = None))) /\
    (exists r sf log',
       Pools.get_matchup_pool champions post summoner region name queue role (self, log)
       = (r, (sf, log')) /\
       ((log' = log /\ exists e, r = Raise e) \/
        exists q,
          log' = (log ++ [q])%list /\
          operationName q = "LolProfilePageMatchupsPoolQuery" /\
          persistedQuery_sha256Hash q = SHA_M self /\ var_mode q = "Worst" /\
          var_top q = max_games self /\ var_summonerName q = summoner /\
          var_region q = region /\ var_cQueue q = queue /\ var_cRolename q = role /\
          (name = None -> var_cChampionId q = None))).
Proof.
  intros champions post summoner region name queue role self log. split.
  - unfold Pools.get_champion_pool.
    destruct (get_pool_log champions post "LolProfilePageChampionsPoolQuery" summoner region
                name queue role self log) as (r & sf & log' & Hrun & Hlog).
    exists r, sf, log'. split; [exact Hrun|].
    destruct Hlog as [Hl | (riot_id & -> & Hid)]; [left; exact Hl|].
    right. eexists. split; [reflexivity|]. cbn. repeat split; auto.
  - unfold Pools.get_matchup_pool.
    destruct (get_pool_log champions post "LolProfilePageMatchupsPoolQuery" summoner region
                name queue role self log) as (r & sf & log' & Hrun & Hlog).
    exists r, sf, log'. split; [exact Hrun|].
    destruct Hlog as [Hl | (riot_id & -> & Hid)]; [left; exact Hl|].
    right. eexists. split; [reflexivity|]. cbn. repeat split; auto.
Qed.

(** X11. A call without a champion filter does not need the champion table
    when the answer gives it nothing to translate: on an empty answer it
    returns the empty list, and when the request raises it raises the same
    exception; in both cases the scraper is as it was, whatever the
    champion service would answer. *)
Theorem get_pool_without_filter_on_empty_or_failed_answer :
  forall (champions : result DataFrame) (post : Query -> result (list Item))
         (operation : string) (summoner region : pyvalue) (queue role : option string)
         (self : GGScraper.t) (log : list Query),
    (post (pool_query self operation summoner region None queue role) = Return [] ->
     Pools._get_pool champions post operation summoner region None queue role (self, log)
     = (Return [],
        (self, (log ++ [pool_query self operation summoner region None queue role])%list))) /\
    (forall e,
       post (pool_query self operation summoner region None queue role) = Raise e ->
       Pools._get_pool champions post operation summoner region None queue role (self, log)
       = (Raise e,
          (self, (log ++ [pool_query self operation summoner region None queue role])%list))).
Proof.
  intros champions post operation summoner region queue role self log. split.
  - intros H. rewrite get_pool_without_filter, H. reflexivity.
  - intros e H. rewrite get_pool_without_filter, H. reflexivity.
Qed.

Lemma get_pool_without_filter_on_empty_or_failed_answer_witness :
  Pools._get_pool (Raise (OtherException "ConnectionError")) (fun _ => Return [])
    "LolProfilePageMatchupsPoolQuery" (PyStr "Fizsie") (PyStr "NA") None None (Some "JUNGLE")
    (example_scraper, [])
  = (Return [],
     (example_scraper,
      ([] ++ [pool_query example_scraper "LolProfilePageMatchupsPoolQuery"
                (PyStr "Fizsie") (PyStr "NA") None None (Some "JUNGLE")])%list)).
Proof.
  exact (proj1 (get_pool_without_filter_on_empty_or_failed_answer
                  (Raise (OtherException "ConnectionError")) (fun _ => Return [])
                  "LolProfilePageMatchupsPoolQuery" (PyStr "Fizsie") (PyStr "NA")
                  None (Some "JUNGLE") example_scraper []) eq_refl).
Defined.

(** ** Runs of [inform] on any roster *)

Lemma entity_ext : forall e1 e2 : SummonerInformation.t,
  (forall q, read q e1 = read q e2) -> e1 = e2.
Proof.
  intros [r1 n1 c1 m1] [r2 n2 c2 m2] H.
  pose proof (H Region) as Hr. pose proof (H Name) as Hn.
  pose proof (H ChampionPool) as Hc. pose proof (H MatchupPool) as Hm.
  cbn in Hr, Hn, Hc, Hm. congruence.
Qed.

Lemma roster_ext : forall t1 t2 : Composition.t,
  (forall s q, read q (Composition.read s t1) = read q (Composition.read s t2)) -> t1 = t2.
Proof.
  intros [a1 b1 c1 d1 e1] [a2 b2 c2 d2 e2] H.
  rewrite (entity_ext a1 a2 (H Composition.Top)), (entity_ext b1 b2 (H Composition.Jungle)),
          (entity_ext c1 c2 (H Composition.Mid)), (entity_ext d1 d2 (H Composition.Adc)),
          (entity_ext e1 e2 (H Composition.Support)).
  reflexivity.
Qed.

(** The body of the loop on a pool field that already holds a value: it
    raises and changes nothing. *)
Lemma store_on_set_field : forall fs f s p team x,
  target fs f = Some (s, p) ->
  field (s, p) team = Some x ->
  store fs f team =
  (Raise (match fut_outcome f with
          | Return _ => TypeError_reassignment
          | Raise e => if isinstance_Exception e then TypeError_reassignment else e
          end), team).
Proof.
  intros fs f s p team x Ht Hx. unfold field in Hx; cbn in Hx.
  rewrite (store_target fs f s p Ht).
  unfold Composition.on, bind, lift, _fetch, Future_result.
  destruct (fut_outcome f) as [v|e].
  - rewrite (setattr_set_slot p v _ x Hx), roster_write_read. reflexivity.
  - destruct (isinstance_Exception e).
    + rewrite (setattr_set_slot p PyNone _ x Hx), roster_write_read. reflexivity.
    + rewrite roster_write_read. reflexivity.
Qed.

(** When the loop returns, every target field was absent before it, every
    task returned, and each target field holds its task's result; the
    other fields are as before. *)
Lemma for_each_store_returns : forall fs l team team',
  NoDup (map (target fs) l) ->
  (forall f, In f l ->
     exists s p, target fs f = Some (s, p) /\ (p = ChampionPool \/ p = MatchupPool)) ->
  (forall f v, In f l -> fut_outcome f = Return v -> check v = true) ->
  for_each (store fs) l team = (Return tt, team') ->
  (forall f, In f l ->
     exists sp v, target fs f = Some sp /\ field sp team = None /\
                  fut_outcome f = Return v /\ field sp team' = Some v) /\
  (forall sp, ~ In (Some sp) (map (target fs) l) -> field sp team' = field sp team).
Proof.
  intros fs l. induction l as [|f l IH]; intros team team' Hnd Htgt Hchk Hrun.
  - injection Hrun as <-. split; [intros f []|reflexivity].
  - inversion Hnd as [|? ? Hnotin Hnd']; subst.
    destruct (Htgt f (or_introl eq_refl)) as (s & p & Ht & Hp).
    cbn [for_each] in Hrun. unfold bind at 1 in Hrun.
    destruct (field (s, p) team) as [x|] eqn:Hfield.
    + rewrite (store_on_set_field fs f s p team x Ht Hfield) in Hrun. discriminate Hrun.
    + rewrite (store_on_absent_field fs f s p team Ht Hp Hfield) in Hrun.
      destruct (fut_outcome f) as [v|e] eqn:Ef.
      * rewrite (Hchk f v (or_introl eq_refl) Ef) in Hrun.
        set (team1 := Composition.write s (write p v (Composition.read s team)) team) in *.
        destruct (IH team1 team' Hnd') as [Hset Hother]; auto.
        { intros g Hg. apply Htgt. right; exact Hg. }
        { intros g w Hg. apply Hchk. right; exact Hg. }
        split.
        -- intros g [<-|Hg].
           ++ exists (s, p), v. repeat split; auto.
              rewrite Hother; [apply field_write_same|rewrite <- Ht; exact Hnotin].
           ++ destruct (Hset g Hg) as (sp & w & Hsp & Hnone & Hw & Hval).
              exists sp, w. repeat split; auto.
              rewrite <- Hnone. symmetry. apply field_write_other.
              intros ->. apply Hnotin. rewrite Ht, <- Hsp. apply in_map. exact Hg.
        -- intros sp Hsp. rewrite Hother.
           ++ apply field_write_other. intros ->. apply Hsp. left. exact Ht.
           ++ intros Hin. apply Hsp. right. exact Hin.
      * destruct (isinstance_Exception e); discriminate Hrun.
Qed.

(** The exceptions the loop can raise on target fields that are absent:
    the [TypeError] of the guard on [None], or an exception of a task that
    is not an [Exception]. *)
Lemma for_each_store_raises : forall fs l team team' x,
  NoDup (map (target fs) l) ->
  (forall f, In f l ->
     exists s p, target fs f = Some (s, p) /\ (p = ChampionPool \/ p = MatchupPool) /\
                 field (s, p) team = None) ->
  (forall f v, In f l -> fut_outcome f = Return v -> check v = true) ->
  for_each (store fs) l team = (Raise x, team') ->
  x = TypeError_not_summaries PyNone \/ exists cls, x = SystemExiting cls.
Proof.
  intros fs l. induction l as [|f l IH]; intros team team' x Hnd Habs Hchk Hrun.
  - discriminate Hrun.
  - inversion Hnd as [|? ? Hnotin Hnd']; subst.
    destruct (Habs f (or_introl eq_refl)) as (s & p & Ht & Hp & Hnone).
    cbn [for_each] in Hrun. unfold bind at 1 in Hrun.
    rewrite (store_on_absent_field fs f s p team Ht Hp Hnone) in Hrun.
    destruct (fut_outcome f) as [v|e] eqn:Ef.
    + rewrite (Hchk f v (or_introl eq_refl) Ef) in Hrun.
      eapply IH; [exact Hnd'| |intros g w Hg; apply Hchk; right; exact Hg|exact Hrun].
      intros g Hg. destruct (Habs g (or_intror Hg)) as (s' & p' & Ht' & Hp' & Hnone').
      exists s', p'. repeat split; auto.
      rewrite field_write_other; [exact Hnone'|].
      intros Heq. apply Hnotin. rewrite Ht, <- Heq, <- Ht'. apply in_map. exact Hg.
    + destruct e; cbn in Hrun; injection Hrun as <- _; eauto.
Qed.

Section AnyRoster.

Variable remote : nat -> Call -> result (list ChampionSummary.t).
Variable as_completed : list Future -> list Future.
Hypothesis as_completed_permutes : forall l, Permutation (as_completed l) l.
Variables region name : Composition.slot -> pyvalue.
Variables pool against : Composition.slot -> option pyvalue.

(** The dictionary depends on the identities only, and a run of [inform]
    on a roster whose entities have their identity is its loop followed by
    the final [all]. *)
Lemma inform_any :
  inform remote as_completed (roster region name pool against)
  = match for_each (store (submitted remote (fresh_roster region name)))
                   (as_completed (scheduled remote (fresh_roster region name)))
                   (roster region name pool against) with
    | (Return _, team') => (all_bool (Composition.__iter__ team'), team')
    | (Raise e, team') => (Raise e, team')
    end.
Proof. reflexivity. Qed.

Lemma future_scheduled : forall fn s,
  In (future_of remote region name fn s) (scheduled remote (fresh_roster region name)).
Proof. intros fn s. destruct fn, s; cbn; tauto. Qed.

Lemma future_target : forall fn s,
  target (submitted remote (fresh_roster region name)) (future_of remote region name fn s)
  = Some (s, pool_slot fn).
Proof. intros fn s. destruct fn, s; reflexivity. Qed.

Lemma scheduled_inv : forall f,
  In f (scheduled remote (fresh_roster region name)) ->
  exists fn s, f = future_of remote region name fn s.
Proof.
  intros f H. cbn in H.
  destruct H as [<-|H]; [exists get_champion_pool, Composition.Top; reflexivity|].
  destruct H as [<-|H]; [exists get_champion_pool, Composition.Jungle; reflexivity|].
  destruct H as [<-|H]; [exists get_champion_pool, Composition.Mid; reflexivity|].
  destruct H as [<-|H]; [exists get_champion_pool, Composition.Adc; reflexivity|].
  destruct H as [<-|H]; [exists get_champion_pool, Composition.Support; reflexivity|].
  destruct H as [<-|H]; [exists get_matchup_pool, Composition.Top; reflexivity|].
  destruct H as [<-|H]; [exists get_matchup_pool, Composition.Jungle; reflexivity|].
  destruct H as [<-|H]; [exists get_matchup_pool, Composition.Mid; reflexivity|].
  destruct H as [<-|H]; [exists get_matchup_pool, Composition.Adc; reflexivity|].
  destruct H as [<-|H]; [exists get_matchup_pool, Composition.Support; reflexivity|].
  destruct H.
Qed.

Lemma future_outcome : forall fn s v,
  fut_outcome (future_of remote region name fn s) = Return v ->
  (exists stats, remote (index_of fn s) (call_of region name fn s) = Return stats) /\
  fetched remote region name fn s = Some v.
Proof.
  intros fn s v. unfold future_of, fetched. cbn [fut_outcome submit].
  destruct (remote (index_of fn s) (call_of region name fn s)) as [stats|e].
  - intros H. injection H as <-. split; [eauto|reflexivity].
  - discriminate.
Qed.

Lemma pool_slot_is_pool : forall fn,
  pool_slot fn = ChampionPool \/ pool_slot fn = MatchupPool.
Proof. destruct fn; cbn; auto. Qed.

Lemma field_of_roster : forall fn s,
  field (s, pool_slot fn) (roster region name pool against)
  = match fn with get_champion_pool => pool s | get_matchup_pool => against s end.
Proof. intros fn s. destruct fn, s; reflexivity. Qed.

(** The futures of the loop, in any order of completion: distinct pool
    fields as targets, results that pass the guard. *)
Lemma completed_targets :
  NoDup (map (target (submitted remote (fresh_roster region name)))
             (as_completed (scheduled remote (fresh_roster region name)))) /\
  (forall f, In f (as_completed (scheduled remote (fresh_roster region name))) ->
     In f (scheduled remote (fresh_roster region name))) /\
  (forall f v, In f (as_completed (scheduled remote (fresh_roster region name))) ->
     fut_outcome f = Return v -> check v = true).
Proof.
  pose proof (as_completed_permutes (scheduled remote (fresh_roster region name))) as Hperm.
  assert (Hin : forall f, In f (as_completed (scheduled remote (fresh_roster region name))) ->
                          In f (scheduled remote (fresh_roster region name))).
  { intros f Hf. apply (Permutation_in _ Hperm). exact Hf. }
  split; [|split; [exact Hin|]].
  - apply (Permutation_NoDup
             (Permutation_sym (Permutation_map
                (target (submitted remote (fresh_roster region name))) Hperm))).
    rewrite (targets_scheduled remote region name).
    apply Finite.Injective_map_NoDup; [intros x y Hxy; congruence|apply pool_fields_NoDup].
  - intros f v Hf. apply (scheduled_checked remote region name). apply Hin. exact Hf.
Qed.

(** A run that returns: the roster was fresh, every call returned, the
    result is [True] and the roster is the enriched one. *)
Lemma inform_return_inv : forall b team',
  inform remote as_completed (roster region name pool against) = (Return b, team') ->
  b = true /\
  (forall s, pool s = None /\ against s = None) /\
  (forall fn s, exists stats,
     remote (index_of fn s) (call_of region name fn s) = Return stats) /\
  team' = enriched remote region name.
Proof.
  intros b team' H. rewrite inform_any in H.
  destruct completed_targets as (Hnd & Hin & Hchk).
  destruct (for_each (store (submitted remote (fresh_roster region name)))
                     (as_completed (scheduled remote (fresh_roster region name)))
                     (roster region name pool against)) as [[[]|x] team1] eqn:Hrun;
    [|discriminate H].
  assert (Htgt : forall f,
            In f (as_completed (scheduled remote (fresh_roster region name))) ->
            exists s p, target (submitted remote (fresh_roster region name)) f = Some (s, p) /\
                        (p = ChampionPool \/ p = MatchupPool)).
  { intros f Hf. destruct (scheduled_inv f (Hin f Hf)) as (fn & s & ->).
    exists s, (pool_slot fn). split; [apply future_target|apply pool_slot_is_pool]. }
  destruct (for_each_store_returns _ _ _ _ Hnd Htgt Hchk Hrun) as [Hset _].
  assert (Hall : forall fn s,
            field (s, pool_slot fn) (roster region name pool against) = None /\
            (exists stats, remote (index_of fn s) (call_of region name fn s) = Return stats) /\
            field (s, pool_slot fn) team1 = fetched remote region name fn s).
  { intros fn s.
    destruct (Hset (future_of remote region name fn s)) as (sp & v & Hsp & Hnone & Hv & Hval).
    { apply (Permutation_in _ (Permutation_sym (as_completed_permutes _))).
      apply future_scheduled. }
    rewrite future_target in Hsp. injection Hsp as <-.
    destruct (future_outcome fn s v Hv) as [Hstats Hfetched].
    repeat split; auto. congruence. }
  assert (Hteam : team1 = enriched remote region name).
  { apply roster_ext. intros s q.
    destruct q.
    - rewrite (for_each_store_keeps _ _ _ _ _ s Region (region s) Hrun)
        by (destruct s; reflexivity).
      destruct s; reflexivity.
    - rewrite (for_each_store_keeps _ _ _ _ _ s Name (name s) Hrun)
        by (destruct s; reflexivity).
      destruct s; reflexivity.
    - destruct (Hall get_champion_pool s) as (_ & _ & Hval).
      unfold field in Hval; cbn [fst snd pool_slot] in Hval. rewrite Hval.
      destruct s; reflexivity.
    - destruct (Hall get_matchup_pool s) as (_ & _ & Hval).
      unfold field in Hval; cbn [fst snd pool_slot] in Hval. rewrite Hval.
      destruct s; reflexivity. }
  assert (Hbool : all_bool (Composition.__iter__ team1) = Return true).
  { apply all_bool_complete. intros [s p] Hsp.
    destruct (pool_fields_absent region name s p Hsp) as [[-> | ->] _].
    - destruct (Hall get_champion_pool s) as (_ & [stats Hs] & Hval).
      cbn [pool_slot] in Hval. rewrite Hval. unfold fetched. rewrite Hs.
      eexists. split; [reflexivity|apply check_summaries].
    - destruct (Hall get_matchup_pool s) as (_ & [stats Hs] & Hval).
      cbn [pool_slot] in Hval. rewrite Hval. unfold fetched. rewrite Hs.
      eexists. split; [reflexivity|apply check_summaries]. }
  rewrite Hbool in H. injection H as <- <-.
  split; [reflexivity|]. split; [|split; [|exact Hteam]].
  - intros s. split.
    + destruct (Hall get_champion_pool s) as (Hnone & _). rewrite field_of_roster in Hnone.
      exact Hnone.
    + destruct (Hall get_matchup_pool s) as (Hnone & _). rewrite field_of_roster in Hnone.
      exact Hnone.
  - intros fn s. destruct (Hall fn s) as (_ & Hs & _). exact Hs.
Qed.

End AnyRoster.

(** X12. [inform] returns only from a fresh roster on which every call
    returned.  For every roster whose entities have their identity, every
    behaviour of the Remote Data Source and every order of completion: if
    [inform] returns, then the value is [True], all ten pool slots were
    absent before the run, each of the ten calls returned, and afterwards
    each pool slot holds the list its own call returned.  So a run on a
    roster with a pool already set, or with a call that raises, raises. *)
Theorem inform_returns_only_from_a_fresh_roster :
  forall (remote : nat -> Call -> result (list ChampionSummary.t))
         (as_completed : list Future -> list Future)
         (region name : Composition.slot -> pyvalue)
         (pool against : Composition.slot -> option pyvalue)
         (b : bool) (team' : Composition.t),
    (forall l, Permutation (as_completed l) l) ->
    inform remote as_completed (roster region name pool against) = (Return b, team') ->
    b = true /\
    (forall s, pool s = None /\ against s = None) /\
    (forall fn s, exists stats,
       remote (index_of fn s) (call_of region name fn s) = Return stats) /\
    team' = enriched remote region name.
Proof.
  intros remote as_completed region name pool against b team' Hperm H.
  exact (inform_return_inv remote as_completed Hperm region name pool against b team' H).
Qed.

Lemma inform_returns_only_from_a_fresh_roster_witness :
  true = true /\
  (forall s : Composition.slot, @None pyvalue = None /\ @None pyvalue = None) /\
  (forall fn s, exists stats,
     (fun (_ : nat) (_ : Call) => Return [thresh])
       (index_of fn s) (call_of (fun _ => PyStr "NA") ally_names fn s) = Return stats) /\
  snd (inform (fun _ _ => Return [thresh]) in_reverse_order ally)
  = enriched (fun _ _ => Return [thresh]) (fun _ => PyStr "NA") ally_names.
Proof.
  apply (inform_returns_only_from_a_fresh_roster (fun _ _ => Return [thresh])
           in_reverse_order (fun _ => PyStr "NA") ally_names (fun _ => None) (fun _ => None)
           true (snd (inform (fun _ _ => Return [thresh]) in_reverse_order ally))).
  - intros l. apply Permutation_sym. apply Permutation_rev.
  - reflexivity.
Defined.

(** X13. On a fresh roster on which every one of the ten calls returns,
    [inform] returns [True], and afterwards every entity keeps its identity
    and each pool slot holds the list its own call returned.  The final
    roster is the same for every order in which the futures settle. *)
Theorem inform_enriches_a_fresh_roster :
  forall (remote : nat -> Call -> result (list ChampionSummary.t))
         (as_completed : list Future -> list Future)
         (region name : Composition.slot -> pyvalue),
    (forall l, Permutation (as_completed l) l) ->
    (forall fn s, exists stats,
       remote (index_of fn s) (call_of region name fn s) = Return stats) ->
    inform remote as_completed (fresh_roster region name)
    = (Return true, enriched remote region name).
Proof.
  intros remote as_completed region name Hperm Hall.
  destruct (inform_returns_True_when_all_fetches_return remote as_completed Hperm region name)
    as (team' & Hrun & _).
  { intros f Hf. destruct (scheduled_inv remote region name f Hf) as (fn & s & ->).
    destruct (Hall fn s) as [stats Hs].
    exists (PyList (map PySummary stats)).
    unfold Future_result, future_of. cbn [fut_outcome submit]. rewrite Hs. reflexivity. }
  rewrite Hrun. f_equal.
  apply (inform_return_inv remote as_completed Hperm region name
           (fun _ => None) (fun _ => None) true team').
  exact Hrun.
Qed.

Lemma inform_enriches_a_fresh_roster_witness :
  inform (fun _ _ => Return [thresh; thresh; thresh]) in_reverse_order ally
  = (Return true,
     enriched (fun _ _ => Return [thresh; thresh; thresh]) (fun _ => PyStr "NA") ally_names).
Proof.
  apply (inform_enriches_a_fresh_roster (fun _ _ => Return [thresh; thresh; thresh])
           in_reverse_order (fun _ => PyStr "NA") ally_names).
  - intros l. apply Permutation_sym. apply Permutation_rev.
  - intros fn s. exists [thresh; thresh; thresh]. reflexivity.
Defined.

(** X14. [inform] cannot be run again on a roster whose ten pool slots are
    set: whatever the calls produce and in whatever order they settle, the
    run raises at the first future it handles (the reassignment
    [TypeError], or the task's exception when that is not an [Exception])
    and leaves the roster exactly as it was. *)
Theorem inform_on_a_full_roster_raises :
  forall (remote : nat -> Call -> result (list ChampionSummary.t))
         (as_completed : list Future -> list Future)
         (region name : Composition.slot -> pyvalue)
         (pool against : Composition.slot -> option pyvalue),
    (forall l, Permutation (as_completed l) l) ->
    (forall s, pool s <> None /\ against s <> None) ->
    exists e,
      inform remote as_completed (roster region name pool against)
      = (Raise e, roster region name pool against) /\
      (e = TypeError_reassignment \/ exists cls, e = SystemExiting cls).
Proof.
  intros remote as_completed region name pool against Hperm Hset.
  rewrite inform_any.
  pose proof (Hperm (scheduled remote (fresh_roster region name))) as Hp.
  destruct (as_completed (scheduled remote (fresh_roster region name))) as [|f rest] eqn:El.
  - apply Permutation_length in Hp. cbn in Hp. discriminate Hp.
  - assert (Hf : In f (scheduled remote (fresh_roster region name))).
    { apply (Permutation_in _ Hp). left; reflexivity. }
    destruct (scheduled_inv remote region name f Hf) as (fn & s & ->).
    assert (Hfield : exists x, field (s, pool_slot fn) (roster region name pool against)
                               = Some x).
    { rewrite field_of_roster. destruct (Hset s) as [H1 H2].
      destruct fn; [destruct (pool s)|destruct (against s)]; eauto; congruence. }
    destruct Hfield as [x Hx].
    cbn [for_each]. unfold bind at 1.
    rewrite (store_on_set_field _ _ s (pool_slot fn) _ x
               (future_target remote region name fn s) Hx).
    eexists. split; [reflexivity|].
    destruct (fut_outcome (future_of remote region name fn s)) as [v|e]; [auto|].
    destruct e; cbn; eauto.
Qed.

Lemma inform_on_a_full_roster_raises_witness :
  exists e,
    inform mid_matchup_fails in_submission_order
      (roster (fun _ => PyStr "NA") ally_names
              (fetched (fun _ _ => Return [thresh]) (fun _ => PyStr "NA") ally_names
                       get_champion_pool)
              (fetched (fun _ _ => Return [thresh]) (fun _ => PyStr "NA") ally_names
                       get_matchup_pool))
    = (Raise e,
       roster (fun _ => PyStr "NA") ally_names
              (fetched (fun _ _ => Return [thresh]) (fun _ => PyStr "NA") ally_names
                       get_champion_pool)
              (fetched (fun _ _ => Return [thresh]) (fun _ => PyStr "NA") ally_names
                       get_matchup_pool)) /\
    (e = TypeError_reassignment \/ exists cls, e = SystemExiting cls).
Proof.
  apply (inform_on_a_full_roster_raises mid_matchup_fails in_submission_order
           (fun _ => PyStr "NA") ally_names).
  - intros l. apply Permutation_refl.
  - intros s. split; discriminate.
Defined.

(** The exceptions a run on a fresh roster can raise. *)
Lemma inform_raise_inv :
  forall (remote : nat -> Call -> result (list ChampionSummary.t))
         (as_completed : list Future -> list Future)
         (region name : Composition.slot -> pyvalue) (x : exn) (team' : Composition.t),
    (forall l, Permutation (as_completed l) l) ->
    inform remote as_completed (fresh_roster region name) = (Raise x, team') ->
    x = TypeError_not_summaries PyNone \/ exists cls, x = SystemExiting cls.
Proof.
  intros remote as_completed region name x team' Hperm H.
  rewrite inform_fresh in H.
  destruct (completed_targets remote as_completed Hperm region name) as (Hnd & Hin & Hchk).
  destruct (for_each (store (submitted remote (fresh_roster region name)))
                     (as_completed (scheduled remote (fresh_roster region name)))
                     (fresh_roster region name)) as [[[]|y] team1] eqn:Hrun.
  - destruct (loop_fresh remote as_completed Hperm region name)
      as (r & team2 & Hrun2 & [[[z ->] _] | (-> & _ & Hset)]);
      rewrite Hrun in Hrun2; [discriminate Hrun2|].
    injection Hrun2 as <-. rewrite (all_bool_complete team1 Hset) in H. discriminate H.
  - injection H as <- <-.
    apply (for_each_store_raises _ _ _ _ _ Hnd) with (3 := Hrun); [|exact Hchk].
    intros f Hf. destruct (scheduled_inv remote region name f (Hin f Hf)) as (fn & s & ->).
    exists s, (pool_slot fn). split; [apply future_target|].
    split; [apply pool_slot_is_pool|]. destruct fn, s; reflexivity.
Qed.

(** The identities of a roster after a run of [inform]. *)
Lemma inform_keeps_identity :
  forall (remote : nat -> Call -> result (list ChampionSummary.t))
         (as_completed : list Future -> list Future)
         (region name : Composition.slot -> pyvalue) (s : Composition.slot),
    read Region (Composition.read s
                   (snd (inform remote as_completed (fresh_roster region name))))
    = Some (region s) /\
    read Name (Composition.read s
                 (snd (inform remote as_completed (fresh_roster region name))))
    = Some (name s).
Proof.
  intros remote as_completed region name s. rewrite inform_fresh.
  destruct (for_each (store (submitted remote (fresh_roster region name)))
                     (as_completed (scheduled remote (fresh_roster region name)))
                     (fresh_roster region name)) as [r team'] eqn:E.
  assert (Hsnd : snd (match r with
                      | Return _ => (all_bool (Composition.__iter__ team'), team')
                      | Raise e => (Raise e, team')
                      end) = team') by (destruct r; reflexivity).
  rewrite Hsnd. split.
  - apply (for_each_store_keeps _ _ _ _ _ s Region (region s) E). destruct s; reflexivity.
  - apply (for_each_store_keeps _ _ _ _ _ s Name (name s) E). destruct s; reflexivity.
Qed.

(** ** The two [__repr__] methods *)

Lemma repr_of_identified : forall (str : pyvalue -> string) (e : SummonerInformation.t) r n,
  read Region e = Some r -> read Name e = Some n ->
  Repr.SummonerInformation___repr__ str e
  = (Return ("SummonerInformation{region=" ++ str r ++ ", name=" ++ str n
             ++ ", champion_pool=" ++ str (Repr.getattr_or_None ChampionPool e)
             ++ ", matchup_pool=" ++ str (Repr.getattr_or_None MatchupPool e) ++ "}"),
     e).
Proof.
  intros str e r n Hr Hn.
  unfold Repr.SummonerInformation___repr__, bind, getattr. rewrite Hr, Hn. reflexivity.
Qed.

(** X15. On an entity reached from the constructor by any assignments,
    [repr(entity)] returns and leaves the entity as it was, also while a
    pool is absent (the text then shows [None] for it), where
    [bool(entity)] raises. *)
Theorem repr_returns_on_every_entity :
  forall (str : pyvalue -> string) (region name : pyvalue) (e0 : SummonerInformation.t)
         (ops : list (string * pyvalue)),
    new region name = Return e0 ->
    Repr.SummonerInformation___repr__ str (assignments ops e0)
    = (Return ("SummonerInformation{region=" ++ str region ++ ", name=" ++ str name
               ++ ", champion_pool="
               ++ str (Repr.getattr_or_None ChampionPool (assignments ops e0))
               ++ ", matchup_pool="
               ++ str (Repr.getattr_or_None MatchupPool (assignments ops e0)) ++ "}"),
       assignments ops e0).
Proof.
  intros str region name e0 ops Hnew. injection Hnew as <-.
  apply repr_of_identified; apply assignments_keep; reflexivity.
Qed.

Lemma repr_returns_on_every_entity_witness :
  Repr.SummonerInformation___repr__ (fun v => match v with PyStr s => s | _ => "None" end)
    (assignments [("champion_pool", PyNone)]
       (SummonerInformation.mk (Some (PyStr "NA")) (Some (PyStr "Fizsie")) None None))
  = (Return ("SummonerInformation{region=" ++ "NA" ++ ", name=" ++ "Fizsie"
             ++ ", champion_pool=" ++ "None" ++ ", matchup_pool=" ++ "None" ++ "}"),
     assignments [("champion_pool", PyNone)]
       (SummonerInformation.mk (Some (PyStr "NA")) (Some (PyStr "Fizsie")) None None)).
Proof.
  exact (repr_returns_on_every_entity
           (fun v => match v with PyStr s => s | _ => "None" end)
           (PyStr "NA") (PyStr "Fizsie")
           (SummonerInformation.mk (Some (PyStr "NA")) (Some (PyStr "Fizsie")) None None)
           [("champion_pool", PyNone)] eq_refl).
Defined.

(** X16. After any run of [inform] on a roster built by [Composition],
    whether the run returned or raised and whatever it assigned,
    [repr(team)] returns and leaves the roster as it was. *)
Theorem roster_repr_returns_after_any_run :
  forall (str : pyvalue -> string) (region top jungle mid adc support : pyvalue)
         (team : Composition.t)
         (remote : nat -> Call -> result (list ChampionSummary.t))
         (as_completed : list Future -> list Future),
    Composition.__init__ region top jungle mid adc support = Return team ->
    exists text,
      Repr.Composition___repr__ str (snd (inform remote as_completed team))
      = (Return text, snd (inform remote as_completed team)).
Proof.
  intros str region top jungle mid adc support team remote as_completed Hteam.
  injection Hteam as <-.
  pose (names := fun s => match s with
                          | Composition.Top => top
                          | Composition.Jungle => jungle
                          | Composition.Mid => mid
                          | Composition.Adc => adc
                          | Composition.Support => support
                          end).
  change (Composition.mk _ _ _ _ _) with (fresh_roster (fun _ => region) names).
  set (team' := snd (inform remote as_completed (fresh_roster (fun _ => region) names))).
  assert (Hon : forall s,
            Composition.on s (Repr.SummonerInformation___repr__ str) team'
            = (Return ("SummonerInformation{region=" ++ str region ++ ", name="
                       ++ str (names s) ++ ", champion_pool="
                       ++ str (Repr.getattr_or_None ChampionPool (Composition.read s team'))
                       ++ ", matchup_pool="
                       ++ str (Repr.getattr_or_None MatchupPool (Composition.read s team'))
                       ++ "}"), team')).
  { intros s.
    destruct (inform_keeps_identity remote as_completed (fun _ => region) names s)
      as [Hr Hn].
    unfold Composition.on.
    rewrite (repr_of_identified str (Composition.read s team') region (names s) Hr Hn).
    rewrite roster_write_read. reflexivity. }
  unfold Repr.Composition___repr__, bind.
  rewrite (Hon Composition.Top), (Hon Composition.Jungle), (Hon Composition.Mid),
          (Hon Composition.Adc), (Hon Composition.Support).
  eexists. reflexivity.
Qed.

Lemma roster_repr_returns_after_any_run_witness :
  exists text,
    Repr.Composition___repr__ (fun _ => "?")
      (snd (inform mid_matchup_fails in_reverse_order ally))
    = (Return text, snd (inform mid_matchup_fails in_reverse_order ally)).
Proof.
  exact (roster_repr_returns_after_any_run (fun _ => "?") (PyStr "NA") (PyStr "kal1brate")
           (PyStr "Fizsie") (PyStr "thef1tnessgram") (PyStr "AmbientSolace")
           (PyStr "imwangingrn") ally mid_matchup_fails in_reverse_order eq_refl).
Defined.

(** ** The script *)

Lemma main_with_environment : forall environ remote as_completed sha_c sha_m,
  environ "SHA_C" = Some sha_c -> environ "SHA_M" = Some sha_m ->
  main environ remote as_completed
  = match inform remote as_completed ally with
    | (Raise e, _) => Raise e
    | (Return false, _) => Raise (OtherException "AssertionError")
    | (Return true, team) =>
        match getattr ChampionPool (Composition.support team) with
        | (Raise e, _) => Raise e
        | (Return pool, _) =>
            match iter pool with
            | None => Raise (OtherException "TypeError")
            | Some summaries => Return summaries
            end
        end
    end.
Proof.
  intros environ remote as_completed sha_c sha_m Hc Hm.
  unfold main. rewrite Hc, Hm. reflexivity.
Qed.

(** X17. The script.  Without [SHA_C] or [SHA_M] in the environment it
    raises [KeyError] before anything is fetched.  With both, when all ten
    calls return it prints the summaries of the support player's champion
    pool, in the order the call returned them; and whatever it raises is
    the [TypeError] of the guard on [None] or a task's exception that is
    not an [Exception]: the [assert] on the result of [inform] never fails
    with [AssertionError]. *)
Theorem main_prints_the_support_pool_or_raises :
  forall (environ : string -> option string)
         (remote : nat -> Call -> result (list ChampionSummary.t))
         (as_completed : list Future -> list Future),
    (forall l, Permutation (as_completed l) l) ->
    (environ "SHA_C" = None \/ environ "SHA_M" = None ->
     main environ remote as_completed = Raise KeyError) /\
    (forall sha_c sha_m,
       environ "SHA_C" = Some sha_c -> environ "SHA_M" = Some sha_m ->
       ((forall fn s, exists stats,
           remote (index_of fn s) (call_of (fun _ => PyStr "NA") ally_names fn s)
           = Return stats) ->
        exists stats,
          remote 4 (call_of (fun _ => PyStr "NA") ally_names get_champion_pool
                            Composition.Support) = Return stats /\
          main environ remote as_completed = Return (map PySummary stats)) /\
       (forall e, main environ remote as_completed = Raise e ->
          e = TypeError_not_summaries PyNone \/ exists cls, e = SystemExiting cls)).
Proof.
  intros environ remote as_completed Hperm. split.
  - intros [H|H]; unfold main.
    + rewrite H. reflexivity.
    + destruct (environ "SHA_C"); [rewrite H|]; reflexivity.
  - intros sha_c sha_m Hc Hm.
    rewrite (main_with_environment environ remote as_completed sha_c sha_m Hc Hm).
    destruct (inform remote as_completed ally) as [[b|x] team'] eqn:Hrun.
    + destruct (inform_return_inv remote as_completed Hperm (fun _ => PyStr "NA") ally_names
                  (fun _ => None) (fun _ => None) b team' Hrun) as (-> & _ & Hall & ->).
      destruct (Hall get_champion_pool Composition.Support) as [stats Hs].
      assert (Hmain :
                match getattr ChampionPool
                        (Composition.support
                           (enriched remote (fun _ => PyStr "NA") ally_names)) with
                | (Raise e, _) => Raise e
                | (Return pool, _) =>
                    match iter pool with
                    | None => Raise (OtherException "TypeError")
                    | Some summaries => Return summaries
                    end
                end = Return (map PySummary stats)).
      { unfold getattr, enriched, roster, roster_of, fetched.
        cbn [Composition.support read champion_pool index_of Nat.add]. cbn in Hs.
        rewrite Hs. reflexivity. }
      rewrite Hmain. split.
      * intros _. exists stats. split; [exact Hs|reflexivity].
      * intros e He. discriminate He.
    + split.
      * intros Hall.
        destruct (inform_returns_True_when_all_fetches_return remote as_completed Hperm
                    (fun _ => PyStr "NA") ally_names) as (team2 & Hrun2 & _).
        { intros f Hf.
          destruct (scheduled_inv remote (fun _ => PyStr "NA") ally_names f Hf)
            as (fn & s & ->).
          destruct (Hall fn s) as [stats Hs].
          exists (PyList (map PySummary stats)).
          unfold Future_result, future_of. cbn [fut_outcome submit]. rewrite Hs.
          reflexivity. }
        unfold ally in Hrun. rewrite Hrun in Hrun2. discriminate Hrun2.
      * intros e He. injection He as <-.
        apply (inform_raise_inv remote as_completed (fun _ => PyStr "NA") ally_names
                 x team' Hperm Hrun).
Qed.

Lemma main_prints_the_support_pool_or_raises_witness :
  main (fun _ => None) (fun _ _ => Return [thresh]) in_submission_order = Raise KeyError /\
  exists stats,
    (fun (_ : nat) (_ : Call) => Return [thresh; thresh]) 4%nat
      (call_of (fun _ => PyStr "NA") ally_names get_champion_pool Composition.Support)
    = Return stats /\
    main (fun _ => Some "hash") (fun _ _ => Return [thresh; thresh]) in_reverse_order
    = Return (map PySummary stats).
Proof.
  split.
  - apply (proj1 (main_prints_the_support_pool_or_raises (fun _ => None)
                    (fun _ _ => Return [thresh]) in_submission_order
                    (fun l => Permutation_refl l))).
    left; reflexivity.
  - apply (proj1 (proj2 (main_prints_the_support_pool_or_raises (fun _ => Some "hash")
                           (fun _ _ => Return [thresh; thresh]) in_reverse_order
                           (fun l => Permutation_sym (Permutation_rev l)))
                        "hash" "hash" eq_refl eq_refl)).
    intros fn s. exists [thresh; thresh]. reflexivity.
Defined.

(** The script when the call for the mid player's matchup pool raises: the
    exception is the [TypeError] of the guard, not [AssertionError]. *)
Example main_when_a_call_fails :
  main (fun _ => Some "hash") mid_matchup_fails in_submission_order
  = Raise (TypeError_not_summaries PyNone).
Proof. reflexivity. Qed.

(** ** What one step and a failed run leave in the roster *)

(** X18. One iteration of the loop of [inform] touches at most the field
    its future's label names: every other field of every entity of the
    roster, identity fields included, is afterwards as it was, whether the
    iteration returned or raised. *)
Theorem store_touches_only_its_field :
  forall (fs : list (Future * string)) (f : Future) (team team' : Composition.t)
         (r : result unit) (sp : Composition.slot * slot),
    store fs f team = (r, team') ->
    target fs f <> Some sp ->
    field sp team' = field sp team.
Proof.
  intros fs f team team' r sp H Hsp. unfold store in H. unfold target in Hsp.
  destruct (dict_get fs f) as [label|]; [|injection H as <- <-; reflexivity].
  destruct (split "." label) as [|role [|pool [|? ?]]];
    try (injection H as <- <-; reflexivity).
  unfold Composition.on_attr in H.
  destruct (Composition.slot_of role) as [s|]; [|injection H as <- <-; reflexivity].
  unfold Composition.on, bind, lift in H.
  destruct (_fetch f) as [v|e].
  - destruct (__setattr__ pool v (Composition.read s team)) as [r1 e1] eqn:E.
    injection H as <- <-.
    apply setattr_cases in E as [[-> _]|(p & -> & _ & -> & _)].
    + rewrite roster_write_read. reflexivity.
    + rewrite slot_of_slot_name in Hsp. apply field_write_other. congruence.
  - injection H as <- <-. rewrite roster_write_read. reflexivity.
Qed.

Lemma store_touches_only_its_field_witness :
  field (Composition.Jungle, ChampionPool)
        (snd (store (submitted mid_matchup_fails ally)
                    (future_of mid_matchup_fails (fun _ => PyStr "NA") ally_names
                               get_champion_pool Composition.Top) ally))
  = field (Composition.Jungle, ChampionPool) ally.
Proof.
  apply (store_touches_only_its_field (submitted mid_matchup_fails ally)
           (future_of mid_matchup_fails (fun _ => PyStr "NA") ally_names
                      get_champion_pool Composition.Top)
           ally _ (Return tt) (Composition.Jungle, ChampionPool)).
  - reflexivity.
  - cbn. discriminate.
Defined.

Lemma for_each_app : forall {S A} (body : A -> M S unit) (l1 l2 : list A) (s : S),
  for_each body (l1 ++ l2)%list s
  = match for_each body l1 s with
    | (Return _, s') => for_each body l2 s'
    | (Raise e, s') => (Raise e, s')
    end.
Proof.
  intros S A body l1 l2. induction l1 as [|x l1 IH]; intros s; [reflexivity|].
  cbn [for_each app]. unfold bind.
  destruct (body x s) as [[[]|e] s1]; [apply IH|reflexivity].
Qed.

Lemma NoDup_app_not_both : forall {A} (l1 l2 : list A) x,
  NoDup (l1 ++ l2)%list -> In x l1 -> In x l2 -> False.
Proof.
  intros A l1 l2 x. induction l1 as [|y l1 IH]; intros Hnd H1 H2; [destruct H1|].
  cbn in Hnd. inversion Hnd as [|? ? Hnotin Hnd']; subst.
  destruct H1 as [->|H1]; [|eauto].
  apply Hnotin. apply in_or_app. right. exact H2.
Qed.

(** X19. What a failed run leaves in a fresh roster.  Let the futures
    settle as [pre], then [f], then [post], where every task of [pre]
    returned and the task of [f] raised.  Then [inform] raises (the
    [TypeError] of the guard on [None], or the task's exception when it is
    not an [Exception]); the pool field of every future of [pre] holds the
    list its call returned; and the pool fields of [f] and of every future
    of [post] are absent, also where the task of a future of [post]
    returned. *)
Theorem inform_stores_what_settled_before_the_failure :
  forall (remote : nat -> Call -> result (list ChampionSummary.t))
         (as_completed : list Future -> list Future)
         (region name : Composition.slot -> pyvalue)
         (pre post : list Future) (f : Future) (e : exn),
    (forall l, Permutation (as_completed l) l) ->
    as_completed (scheduled remote (fresh_roster region name)) = (pre ++ f :: post)%list ->
    (forall g, In g pre -> exists v, Future_result g = Return v) ->
    Future_result f = Raise e ->
    exists team',
      inform remote as_completed (fresh_roster region name)
      = (Raise (if isinstance_Exception e then TypeError_not_summaries PyNone else e),
         team') /\
      (forall fn s, In (future_of remote region name fn s) pre ->
         field (s, pool_slot fn) team' = fetched remote region name fn s) /\
      (forall fn s, In (future_of remote region name fn s) (f :: post) ->
         field (s, pool_slot fn) team' = None).
Proof.
  intros remote as_completed region name pre post f e Hperm El Hpre Hf.
  destruct (completed_targets remote as_completed Hperm region name) as (Hnd & Hin & Hchk).
  rewrite El in Hnd, Hin, Hchk. rewrite map_app in Hnd.
  set (fs := submitted remote (fresh_roster region name)) in *.
  assert (Habs : forall g, In g (pre ++ f :: post)%list ->
            exists s p, target fs g = Some (s, p) /\ (p = ChampionPool \/ p = MatchupPool) /\
                        field (s, p) (fresh_roster region name) = None).
  { intros g Hg. destruct (scheduled_inv remote region name g (Hin g Hg)) as (fn & s & ->).
    exists s, (pool_slot fn). split; [apply future_target|].
    split; [apply pool_slot_is_pool|]. destruct fn, s; reflexivity. }
  destruct (for_each_store fs pre (fresh_roster region name))
    as (r & team1 & Hrun & Hcases).
  { apply (NoDup_app_remove_r _ _ Hnd). }
  { intros g Hg. apply Habs. apply in_or_app. left; exact Hg. }
  { intros g v Hg. apply Hchk. apply in_or_app. left; exact Hg. }
  destruct Hcases as [[_ (g & x & Hg & Hx)] | (-> & Hset & Hother)].
  { destruct (Hpre g Hg) as [v Hv]. unfold Future_result in Hv. congruence. }
  assert (Hlater : forall g, In g (f :: post) ->
            forall sp, target fs g = Some sp -> field sp team1 = None).
  { intros g Hg sp Hsp. rewrite Hother.
    - destruct (Habs g) as (s & p & Ht & _ & Hnone); [apply in_or_app; right; exact Hg|].
      congruence.
    - intros Hin'. apply (NoDup_app_not_both _ _ (Some sp) Hnd Hin').
      rewrite <- Hsp. apply (in_map (target fs)). exact Hg. }
  exists team1. split; [|split].
  - rewrite inform_fresh. fold fs. rewrite El, for_each_app, Hrun.
    destruct (Habs f) as (s & p & Ht & Hp & _); [apply in_or_app; right; left; reflexivity|].
    cbn [for_each]. unfold bind at 1.
    rewrite (store_on_absent_field fs f s p team1 Ht Hp
               (Hlater f (or_introl eq_refl) (s, p) Ht)).
    unfold Future_result in Hf. rewrite Hf.
    destruct (isinstance_Exception e); reflexivity.
  - intros fn s Hg.
    destruct (Hset _ Hg) as (v & sp & Hv & _ & Hsp & Hval).
    unfold fs in Hsp. rewrite future_target in Hsp. injection Hsp as <-.
    rewrite Hval. symmetry. apply (future_outcome remote region name fn s v Hv).
  - intros fn s Hg. apply (Hlater _ Hg). apply future_target.
Qed.

Lemma inform_stores_what_settled_before_the_failure_witness :
  exists team',
    inform mid_matchup_fails in_reverse_order ally
    = (Raise (if isinstance_Exception (OtherException "ConnectionError")
              then TypeError_not_summaries PyNone
              else OtherException "ConnectionError"), team') /\
    (forall fn s,
       In (future_of mid_matchup_fails (fun _ => PyStr "NA") ally_names fn s)
          [future_of mid_matchup_fails (fun _ => PyStr "NA") ally_names
                     get_matchup_pool Composition.Support;
           future_of mid_matchup_fails (fun _ => PyStr "NA") ally_names
                     get_matchup_pool Composition.Adc] ->
       field (s, pool_slot fn) team'
       = fetched mid_matchup_fails (fun _ => PyStr "NA") ally_names fn s) /\
    (forall fn s,
       In (future_of mid_matchup_fails (fun _ => PyStr "NA") ally_names fn s)
          (future_of mid_matchup_fails (fun _ => PyStr "NA") ally_names
                     get_matchup_pool Composition.Mid
           :: rev (map (fun s => future_of mid_matchup_fails (fun _ => PyStr "NA") ally_names
                                           get_champion_pool s)
                       [Composition.Top; Composition.Jungle; Composition.Mid;
                        Composition.Adc; Composition.Support]
                   ++ map (fun s => future_of mid_matchup_fails (fun _ => PyStr "NA")
                                              ally_names get_matchup_pool s)
                          [Composition.Top; Composition.Jungle])%list) ->
       field (s, pool_slot fn) team' = None).
Proof.
  apply (inform_stores_what_settled_before_the_failure mid_matchup_fails in_reverse_order
           (fun _ => PyStr "NA") ally_names).
  - intros l. apply Permutation_sym. apply Permutation_rev.
  - reflexivity.
  - intros g [<-|[<-|[]]]; eexists; reflexivity.
  - reflexivity.
Defined.
